(** * react-offline-sync: the offline mutation sync engine

    A shallow embedding of [src/core/SyncEngine.ts] (with [src/types.ts] and
    the in-memory [idb-keyval] store of [src/test/setup.ts]) and the proofs
    of the properties its specification states.

    The engine is asynchronous.  Every [async] method is cut at its [await]
    points: the synchronous run up to an [await] is a function on the
    [World], and what remains to be done after the [await] is stored as a
    suspended [Task] that the scheduler resumes later, together with the
    value the awaited promise settled with. *)

From Stdlib Require Import NArith Ascii DecimalString.
From stdpp Require Import base option list strings gmap fin_maps.

Local Open Scope string_scope.
Local Open Scope list_scope.
Local Open Scope N_scope.

(** ** JavaScript values the engine handles *)

(** [any]: an opaque serialisable payload, kept as its JSON text (so that
    [JSON.stringify] is the identity on it). *)
Definition Any : Type := string.

(** [Record<string, string>] *)
Abbreviation Headers := (gmap string string).

(** Template literal of a number: the decimal digits. *)
Definition showNumber (n : N) : string :=
  NilEmpty.string_of_uint (N.to_uint n).

(** Template literal of [response.status]; a mocked response may carry no
    status field at all, which prints as [undefined]. *)
Definition showStatus (s : option N) : string :=
  match s with
  | Some n => showNumber n
  | None => "undefined"
  end.

(** [String.prototype.startsWith] *)
Fixpoint startsWith (needle hay : string) : bool :=
  match needle, hay with
  | EmptyString, _ => true
  | String _ _, EmptyString => false
  | String a needle', String b hay' =>
      if Ascii.eqb a b then startsWith needle' hay' else false
  end.

(** [String.prototype.includes]: [needle] occurs at some position of [hay]. *)
Fixpoint includes (needle hay : string) : bool :=
  startsWith needle hay ||
  match hay with
  | EmptyString => false
  | String _ hay' => includes needle hay'
  end.

(** What a [catch] clause can receive.  [JsError msg] is an object whose
    [message] is the string [msg] (an [Error], a [TypeError], ...).
    [JsOther] is any other thrown value: [undefined], [null], a primitive,
    an object without a string [message]; on those
    [error.message.includes(...)] raises a [TypeError] itself. *)
Inductive Thrown :=
  | JsError (message : string)
  | JsOther.

(** ** src/types.ts *)

Inductive HTTPMethod := POST | PUT | PATCH | DELETE.

Record RequestPayload := {
  id : string;
  url : string;
  method : HTTPMethod;
  body : option Any;
  headers : option Headers;
  timestamp : N;
  retryCount : N
}.

(** [Omit<RequestPayload, "id" | "timestamp" | "retryCount">], the argument
    of [addRequest]. *)
Record RequestInit := {
  init_url : string;
  init_method : HTTPMethod;
  init_body : option Any;
  init_headers : option Headers
}.

(** The callbacks of [SyncConfig] are user functions.  A configured callback
    is known by a handle; calling it is an observable [Event], and what
    [prepareHeaders] resolves or rejects with is supplied by the scheduler
    when the suspended pass resumes. *)
Record SyncConfig := {
  prepareHeaders : option nat;
  onSuccess : option nat;
  onError : option nat;
  debug : bool
}.

(** [private config: SyncConfig = {}] *)
Definition emptyConfig : SyncConfig :=
  {| prepareHeaders := None; onSuccess := None; onError := None;
     debug := false |}.

(** The part of a fetch [Response] the engine reads: [ok], [status],
    [statusText], and what [response.json()] settles with ([None] when it
    rejects, for instance on an empty body). *)
Record Response := {
  ok : bool;
  status : option N;
  statusText : string;
  json : option Any
}.

(** ** Observable effects *)

Inductive Event :=
  | EvListener (cb : nat) (syncing : bool)
      (* a subscriber is called with [isSyncing] *)
  | EvLog (msg : string)
      (* console.log *)
  | EvPrepareHeaders (f : nat)
      (* config.prepareHeaders() is called *)
  | EvFetch (u : string) (m : HTTPMethod) (hs : Headers) (b : option Any)
      (* fetch(url, { method, headers, body }) is called *)
  | EvOnSuccess (f : nat) (data : Any) (req : RequestPayload)
  | EvOnError (f : nat) (err : Thrown) (req : RequestPayload)
  | EvSetTimeout (delay : N).

(** ** The engine and its environment *)

(** A suspended activation of an [async] method: the [await] it waits at,
    with the locals its continuation still needs. *)
Inductive Task :=
  | PQ_get (v : option (list RequestPayload))
      (* processQueue at [await get(QUEUE_KEY)]; the store resolves with the
         value it held when [get] was called *)
  | PQ_headers (currentReq : RequestPayload)
      (* processQueue at [await this.config.prepareHeaders()] *)
  | PQ_fetch (currentReq : RequestPayload)
      (* processQueue at [await fetch(...)] *)
  | PQ_json (currentReq : RequestPayload) (response : Response)
      (* processQueue at [await response.json().catch(...)] *)
  | PQ_pop (currentReq : RequestPayload)
      (* processQueue at [await update(...)] of the success path *)
  | PQ_drop (currentReq : RequestPayload)
      (* processQueue at [await update(...)] of the client-error path *)
  | HR_update (req : RequestPayload)
      (* handleRetry at [await update(...)] *)
  | AR_update (payload : RequestPayload).
      (* addRequest at [await update(...)] *)

(** The engine's fields ([isSyncing], [listeners], [config]), the record
    stored under [QUEUE_KEY] ([None] while the key is absent),
    [navigator.onLine], the suspended activations, the pending [setTimeout]
    callbacks (each with its delay) and the effects observed so far, oldest
    first. *)
Record World := {
  isSyncing : bool;
  listeners : list nat;
  config : SyncConfig;
  store : option (list RequestPayload);
  onLine : bool;
  tasks : list Task;
  timers : list N;
  trace : list Event
}.

Definition setSyncing (b : bool) (w : World) : World :=
  {| isSyncing := b; listeners := listeners w; config := config w;
     store := store w; onLine := onLine w; tasks := tasks w;
     timers := timers w; trace := trace w |}.

Definition setListeners (l : list nat) (w : World) : World :=
  {| isSyncing := isSyncing w; listeners := l; config := config w;
     store := store w; onLine := onLine w; tasks := tasks w;
     timers := timers w; trace := trace w |}.

Definition setConfig (c : SyncConfig) (w : World) : World :=
  {| isSyncing := isSyncing w; listeners := listeners w; config := c;
     store := store w; onLine := onLine w; tasks := tasks w;
     timers := timers w; trace := trace w |}.

Definition setStore (s : option (list RequestPayload)) (w : World) : World :=
  {| isSyncing := isSyncing w; listeners := listeners w; config := config w;
     store := s; onLine := onLine w; tasks := tasks w;
     timers := timers w; trace := trace w |}.

Definition setOnLine (b : bool) (w : World) : World :=
  {| isSyncing := isSyncing w; listeners := listeners w; config := config w;
     store := store w; onLine := b; tasks := tasks w;
     timers := timers w; trace := trace w |}.

Definition setTasks (ts : list Task) (w : World) : World :=
  {| isSyncing := isSyncing w; listeners := listeners w; config := config w;
     store := store w; onLine := onLine w; tasks := ts;
     timers := timers w; trace := trace w |}.

Definition setTimers (ds : list N) (w : World) : World :=
  {| isSyncing := isSyncing w; listeners := listeners w; config := config w;
     store := store w; onLine := onLine w; tasks := tasks w;
     timers := ds; trace := trace w |}.

Definition emit (evs : list Event) (w : World) : World :=
  {| isSyncing := isSyncing w; listeners := listeners w; config := config w;
     store := store w; onLine := onLine w; tasks := tasks w;
     timers := timers w; trace := trace w ++ evs |}.

(** Reaching an [await]: the activation is parked until it is resumed. *)
Definition suspend (t : Task) (w : World) : World :=
  setTasks (tasks w ++ [t]) w.

(** *** idb-keyval, as [src/test/setup.ts] provides it

    [get(key)] resolves with the stored value.  [update(key, updater)] runs
    the updater on the stored value at once and stores its result; an
    updater that throws (here always a [TypeError] on an absent record)
    makes the call throw and leaves the store as it was. *)
Definition update
    (updater : option (list RequestPayload) → option (list RequestPayload))
    (w : World) : option World :=
  match updater (store w) with
  | Some new => Some (setStore (Some new) w)
  | None => None
  end.

(** [(old: RequestPayload[] = []) => [...old, payload]] *)
Definition appendUpdater (payload : RequestPayload)
    (old : option (list RequestPayload)) : option (list RequestPayload) :=
  Some (default [] old ++ [payload]).

(** [(old: RequestPayload[]) => old.slice(1)] *)
Definition sliceUpdater
    (old : option (list RequestPayload)) : option (list RequestPayload) :=
  match old with
  | Some q => Some (drop 1 q)
  | None => None
  end.

(** The updater of [handleRetry] on a stored array. *)
Definition incrementHead (req : RequestPayload)
    (old : list RequestPayload) : list RequestPayload :=
  match old with
  | [] => []
  | head :: _ =>
      if decide (id head = id req) then
        {| id := id head; url := url head; method := method head;
           body := body head; headers := headers head;
           timestamp := timestamp head;
           retryCount := retryCount head + 1 |} :: drop 1 old
      else old
  end.

Definition retryUpdater (req : RequestPayload)
    (old : option (list RequestPayload)) : option (list RequestPayload) :=
  match old with
  | Some q => Some (incrementHead req q)
  | None => None
  end.

(** The [TypeError] of reading a property of [undefined]. *)
Definition undefinedSlice : Thrown :=
  JsError "Cannot read properties of undefined (reading 'slice')".

(** *** SyncEngine *)

(** [configure] *)
Definition configure (c : SyncConfig) (w : World) : World := setConfig c w.

(** [notifyListeners]: the [Set] is visited in insertion order. *)
Definition notifyListeners (w : World) : World :=
  emit (map (λ cb, EvListener cb (isSyncing w)) (listeners w)) w.

(** [log] *)
Definition log (msg : string) (w : World) : World :=
  if debug (config w) then emit [EvLog ("[SyncEngine] " +:+ msg)] w else w.

(** [subscribe]: [Set.add], then the initial call. *)
Definition subscribe (cb : nat) (w : World) : World :=
  let w :=
    if decide (cb ∈ listeners w) then w
    else setListeners (listeners w ++ [cb]) w in
  emit [EvListener cb (isSyncing w)] w.

(** The handle [subscribe] returns: [Set.delete]. *)
Definition unsubscribe (cb : nat) (w : World) : World :=
  setListeners (filter (λ c, c ≠ cb) (listeners w)) w.

(** [processQueue], lines 52-59: the guard, the flag, the notification and
    the call of [get]. *)
Definition processQueue (w : World) : World :=
  if isSyncing w || negb (onLine w) then w
  else
    let w := setSyncing true w in
    let w := notifyListeners w in
    suspend (PQ_get (store w)) w.

(** The headers object literal of the [fetch] call:
    [{ "Content-Type": "application/json", ...currentReq.headers,
       ...dynamicHeaders }]. Later properties replace earlier ones; stdpp's
    union keeps the left operand on a conflict. *)
Definition mergeHeaders (static : option Headers) (dynamicHeaders : Headers)
    : Headers :=
  dynamicHeaders ∪ (default ∅ static ∪ {[ "Content-Type" := "application/json" ]}).

Definition fetchCall (currentReq : RequestPayload) (dynamicHeaders : Headers)
    : Event :=
  EvFetch (url currentReq) (method currentReq)
          (mergeHeaders (headers currentReq) dynamicHeaders)
          (body currentReq).

(** [handleRetry], lines 139-151, up to its [await].  It is called without
    [await]: when its updater throws, its promise rejects and nobody
    listens. *)
Definition handleRetry (req : RequestPayload) (w : World) : World :=
  let w := log "Sync failed. Scheduling retry..." w in
  match update (retryUpdater req) w with
  | Some w => suspend (HR_update req) w
  | None => w
  end.

(** [handleRetry], lines 154-155: the backoff.  JavaScript computes it in
    double precision, which is exact on these integers as long as
    [1000 * 2 ** retryCount] is finite; beyond that the product is
    [Infinity] and [Math.min] returns the cap all the same. *)
Definition backoffDelay (req : RequestPayload) : N :=
  let retryCount := retryCount req + 1 in
  N.min (1000 * 2 ^ retryCount) 30000.

(** [handleRetry], lines 153-162, after its [await]. *)
Definition handleRetry_resume (req : RequestPayload) (w : World) : World :=
  let delay := backoffDelay req in
  let w := setSyncing false w in
  let w := notifyListeners w in
  setTimers (timers w ++ [delay]) (emit [EvSetTimeout delay] w).

(** The outer [catch (err)] and [finally] of [processQueue]. *)
Definition outerCatch (w : World) : World :=
  notifyListeners (setSyncing false w).

(** The inner [catch (error: any)] block, lines 112-127, followed by the
    outer [finally]. *)
Definition innerCatch (error : Thrown) (currentReq : RequestPayload)
    (w : World) : World :=
  match error with
  | JsOther => outerCatch w
  | JsError message =>
      if includes "Client Error" message then
        let w := log "Dropping bad request (4xx)." w in
        let w :=
          match onError (config w) with
          | Some f => emit [EvOnError f error currentReq] w
          | None => w
          end in
        match update sliceUpdater w with
        | Some w => suspend (PQ_drop currentReq) w
        | None => outerCatch w
        end
      else
        notifyListeners (handleRetry currentReq w)
  end.

(** Line 80: the call of [fetch]. *)
Definition callFetch (currentReq : RequestPayload) (dynamicHeaders : Headers)
    (w : World) : World :=
  suspend (PQ_fetch currentReq) (emit [fetchCall currentReq dynamicHeaders] w).

(** Lines 59-77, after [get] has resolved. *)
Definition afterGet (v : option (list RequestPayload)) (w : World) : World :=
  match default [] v with
  | [] =>
      let w := setSyncing false w in
      let w := notifyListeners w in
      notifyListeners w
  | currentReq :: _ =>
      let w :=
        log ("Processing: " +:+ url currentReq +:+ " (Attempt "
             +:+ showNumber (retryCount currentReq + 1) +:+ ")") w in
      match prepareHeaders (config w) with
      | Some f => suspend (PQ_headers currentReq) (emit [EvPrepareHeaders f] w)
      | None => callFetch currentReq ∅ w
      end
  end.

(** Lines 90-103, after [fetch] has resolved. *)
Definition afterFetch (currentReq : RequestPayload) (response : Response)
    (w : World) : World :=
  if negb (ok response) then
    if match status response with
       | Some s => (400 <=? s) && (s <? 500)
       | None => false
       end
    then
      innerCatch
        (JsError ("Client Error " +:+ showStatus (status response) +:+ ": "
                  +:+ statusText response))
        currentReq w
    else
      innerCatch (JsError ("Server Error " +:+ showStatus (status response)))
        currentReq w
  else suspend (PQ_json currentReq response) w.

(** Lines 103-108, after [response.json()] has settled. *)
Definition afterJson (currentReq : RequestPayload) (response : Response)
    (w : World) : World :=
  let data := default "{}" (json response) in
  let w :=
    match onSuccess (config w) with
    | Some f => emit [EvOnSuccess f data currentReq] w
    | None => w
    end in
  match update sliceUpdater w with
  | Some w => suspend (PQ_pop currentReq) w
  | None => innerCatch undefinedSlice currentReq w
  end.

(** Lines 111 and 122, after [update] has resolved: the recursive call, then
    the outer [finally]. *)
Definition afterPop (w : World) : World :=
  notifyListeners (processQueue w).

(** [addRequest], lines 30-40. *)
Definition newPayload (req : RequestInit) (uuid : string) (now : N)
    : RequestPayload :=
  {| id := uuid; url := init_url req; method := init_method req;
     body := init_body req; headers := init_headers req;
     timestamp := now; retryCount := 0 |}.

Definition addRequest (req : RequestInit) (uuid : string) (now : N)
    (w : World) : World :=
  let payload := newPayload req uuid now in
  match update (appendUpdater payload) w with
  | Some w => suspend (AR_update payload) w
  | None => w
  end.

(** [addRequest], lines 41-45. *)
Definition addRequest_resume (payload : RequestPayload) (w : World) : World :=
  let w := log ("Request queued: " +:+ url payload) w in
  if onLine w then processQueue w else w.

(** The [setTimeout] callback of [handleRetry]. *)
Definition timerCallback (w : World) : World :=
  if onLine w then processQueue w else w.

(** ** The scheduler *)

(** What an awaited promise settles with. *)
Inductive Settled :=
  | Fulfilled
      (* a storage promise, or [response.json().catch(...)] *)
  | FulfilledHeaders (dynamicHeaders : Headers)
      (* [prepareHeaders()] resolved *)
  | FulfilledResponse (response : Response)
      (* [fetch(...)] resolved *)
  | Rejected (error : Thrown).
      (* [prepareHeaders()] or [fetch(...)] threw or rejected *)

(** Resuming a suspended activation with the value its promise settled
    with.  [None]: this promise cannot settle that way. *)
Definition resume (t : Task) (o : Settled) (w : World) : option World :=
  match t, o with
  | PQ_get v, Fulfilled => Some (afterGet v w)
  | PQ_headers currentReq, FulfilledHeaders dynamicHeaders =>
      Some (callFetch currentReq dynamicHeaders w)
  | PQ_headers currentReq, Rejected error =>
      Some (innerCatch error currentReq w)
  | PQ_fetch currentReq, FulfilledResponse response =>
      Some (afterFetch currentReq response w)
  | PQ_fetch currentReq, Rejected error =>
      Some (innerCatch error currentReq w)
  | PQ_json currentReq response, Fulfilled =>
      Some (afterJson currentReq response w)
  | PQ_pop _, Fulfilled => Some (afterPop w)
  | PQ_drop _, Fulfilled => Some (afterPop w)
  | HR_update req, Fulfilled => Some (handleRetry_resume req w)
  | AR_update payload, Fulfilled => Some (addRequest_resume payload w)
  | _, _ => None
  end.

(** What can happen next: a caller uses the public interface, the browser
    changes [navigator.onLine] or dispatches the [online] event, a pending
    promise settles, or a timer fires. *)
Inductive Action :=
  | AddRequest (req : RequestInit) (uuid : string) (now : N)
      (* [addRequest(req)]; [crypto.randomUUID()] and [Date.now()] return
         [uuid] and [now] *)
  | Configure (c : SyncConfig)
  | Subscribe (cb : nat)
  | Unsubscribe (cb : nat)
  | SetOnLine (b : bool)
  | OnlineEvent
  | Resume (i : nat) (o : Settled)
  | TimerFires (i : nat).

Definition step (a : Action) (w : World) : option World :=
  match a with
  | AddRequest req uuid now => Some (addRequest req uuid now w)
  | Configure c => Some (configure c w)
  | Subscribe cb => Some (subscribe cb w)
  | Unsubscribe cb => Some (unsubscribe cb w)
  | SetOnLine b => Some (setOnLine b w)
  | OnlineEvent => Some (processQueue w)
  | Resume i o =>
      match tasks w !! i with
      | Some t => resume t o (setTasks (delete i (tasks w)) w)
      | None => None
      end
  | TimerFires i =>
      match timers w !! i with
      | Some _ => Some (timerCallback (setTimers (delete i (timers w)) w))
      | None => None
      end
  end.

Fixpoint run (acts : list Action) (w : World) : option World :=
  match acts with
  | [] => Some w
  | a :: acts' =>
      match step a w with
      | Some w' => run acts' w'
      | None => None
      end
  end.

(** A fresh engine ([new SyncEngine()]) in a browser that is [online] or
    not, over whatever an earlier session left in the store. *)
Definition initWorld (persisted : option (list RequestPayload))
    (online : bool) : World :=
  {| isSyncing := false; listeners := []; config := emptyConfig;
     store := persisted; onLine := online; tasks := []; timers := [];
     trace := [] |}.

Definition Reachable (w : World) : Prop :=
  ∃ persisted online acts, run acts (initWorld persisted online) = Some w.

(** ** Reading a trace *)

Definition isFetch (e : Event) : bool :=
  match e with EvFetch _ _ _ _ => true | _ => false end.

Definition isOnError (e : Event) : bool :=
  match e with EvOnError _ _ _ => true | _ => false end.

Definition isOnSuccess (e : Event) : bool :=
  match e with EvOnSuccess _ _ _ => true | _ => false end.

Definition isSetTimeout (e : Event) : bool :=
  match e with EvSetTimeout _ => true | _ => false end.

(** The network submissions, in order. *)
Definition fetches (tr : list Event) : list Event := List.filter isFetch tr.

(** The [onError] reports, in order. *)
Definition errorsReported (tr : list Event) : list Event :=
  List.filter isOnError tr.

(** The [onSuccess] reports, in order. *)
Definition successesReported (tr : list Event) : list Event :=
  List.filter isOnSuccess tr.

(** The values subscriber [cb] was called with, in order. *)
Definition heard (cb : nat) (tr : list Event) : list bool :=
  omap (λ e, match e with
             | EvListener c b => if decide (c = cb) then Some b else None
             | _ => None
             end) tr.

(** [(await get(QUEUE_KEY)) || []] *)
Definition queueOf (s : option (list RequestPayload)) : list RequestPayload :=
  default [] s.

(** A caller that awaits [addRequest(req)]: the call, then the continuation
    of that very activation. *)
Definition awaitAddRequest (call : RequestInit * string * N) (w : World)
    : option World :=
  let '(req, uuid, now) := call in
  match step (AddRequest req uuid now) w with
  | Some w' => step (Resume (length (tasks w)) Fulfilled) w'
  | None => None
  end.

Fixpoint enqueueAll (calls : list (RequestInit * string * N)) (w : World)
    : option World :=
  match calls with
  | [] => Some w
  | call :: calls' =>
      match awaitAddRequest call w with
      | Some w' => enqueueAll calls' w'
      | None => None
      end
  end.

(** ** Auxiliary notions for the proofs *)

(** [c] occurs in [s]. *)
Fixpoint mentions (c : ascii) (s : string) : bool :=
  match s with
  | EmptyString => false
  | String a s' => Ascii.eqb c a || mentions c s'
  end.

(** The activations that run while they hold the [isSyncing] guard: a
    drain pass from its [get] to its last use of the head item, and the
    [handleRetry] it leaves behind, which releases the guard.  The others
    ([addRequest], and a pass that has already removed its item) only have
    a guarded call of [processQueue] left to make. *)
Definition holdsGuard (t : Task) : bool :=
  match t with
  | PQ_get _ | PQ_headers _ | PQ_fetch _ | PQ_json _ _ | HR_update _ => true
  | PQ_pop _ | PQ_drop _ | AR_update _ => false
  end.

(** What the activation holding the guard took from the store is still what
    the store holds at its head. *)
Definition agrees (s : option (list RequestPayload)) (t : Task) : Prop :=
  match t with
  | PQ_get v =>
      match queueOf v with
      | [] => True
      | head :: _ => ∃ rest, s = Some (head :: rest)
      end
  | PQ_headers currentReq | PQ_fetch currentReq | PQ_json currentReq _ =>
      ∃ rest, s = Some (currentReq :: rest)
  | _ => True
  end.

(** The invariant of the engine: at most one activation holds the guard;
    while one does, [isSyncing] is set and the head it works on is the
    stored head. *)
Definition Inv (w : World) : Prop :=
  match List.filter holdsGuard (tasks w) with
  | [] => True
  | [t] => isSyncing w = true ∧ agrees (store w) t
  | _ => False
  end.

(** A step sends at most one request, and what it sends is the head of the
    persisted queue, which the step leaves in place. *)
Definition sendsOnlyHead (w w' : World) : Prop :=
  fetches (trace w') = fetches (trace w)
  ∨ ∃ head rest dynamicHeaders,
      store w = Some (head :: rest)
      ∧ store w' = Some (head :: rest)
      ∧ fetches (trace w') = fetches (trace w) ++ [fetchCall head dynamicHeaders].

(** The guard is set and no activation is left that would release it. *)
Definition Stalled (w : World) : Prop :=
  isSyncing w = true ∧ List.filter holdsGuard (tasks w) = [].

Definition isRelease (e : Event) : bool :=
  match e with EvListener _ false => true | _ => false end.

(** The calls that told a subscriber [isSyncing = false]. *)
Definition releases (tr : list Event) : list Event := List.filter isRelease tr.

(** ** Sample data *)

Definition reqA : RequestPayload :=
  {| id := "a"; url := "/api/1"; method := POST; body := Some "[1]";
     headers := None; timestamp := 1; retryCount := 0 |}.

Definition reqB : RequestPayload :=
  {| id := "b"; url := "/api/2"; method := PUT; body := Some "[2]";
     headers := Some {[ "X-Trace" := "b" ]}; timestamp := 2;
     retryCount := 0 |}.

Definition response200 : Response :=
  {| ok := true; status := Some 200; statusText := "OK"; json := Some "{}" |}.

Definition response404 : Response :=
  {| ok := false; status := Some 404; statusText := "Not Found";
     json := None |}.

Definition response301 : Response :=
  {| ok := false; status := Some 301; statusText := "Moved Permanently";
     json := None |}.

(** The mocked failure of the test suite: [{ ok: false, statusText }]. *)
Definition responseNoStatus : Response :=
  {| ok := false; status := None; statusText := "Internal Server Error";
     json := None |}.

Definition reportingConfig : SyncConfig :=
  {| prepareHeaders := None; onSuccess := Some 1%nat; onError := Some 2%nat;
     debug := false |}.

Definition authConfig : SyncConfig :=
  {| prepareHeaders := Some 0%nat; onSuccess := Some 1%nat;
     onError := Some 2%nat; debug := true |}.

(** A [prepareHeaders] that fails while refreshing the token and says so in
    the words of the HTTP status it met. *)
Definition tokenError : Thrown :=
  JsError "Client Error 401: token refresh refused".

(** A [prepareHeaders] that fails with a network error. *)
Definition networkError : Thrown := JsError "Failed to fetch".

Definition initA : RequestInit :=
  {| init_url := "/api/1"; init_method := POST; init_body := Some "[1]";
     init_headers := None |}.

Definition initB : RequestInit :=
  {| init_url := "/api/2"; init_method := PUT; init_body := Some "[2]";
     init_headers := Some {[ "X-Trace" := "b" ]} |}.

(** Two requests were queued in an earlier, offline session. *)
Definition twoQueued (online : bool) : World :=
  initWorld (Some [reqA; reqB]) online.

(** What the engine has nothing more to do with once it is stalled: from [w]
    to [w'] the guard stays set, nothing is sent, no subscriber is told
    [false], and the queue only grows at its tail. *)
Definition staysStalled (w w' : World) : Prop :=
  Stalled w'
  ∧ fetches (trace w') = fetches (trace w)
  ∧ releases (trace w') = releases (trace w)
  ∧ ∃ more, queueOf (store w') = queueOf (store w) ++ more.

(** The browser comes back online over the two queued requests and the
    server accepts the first: the [online] event, then [get], [fetch],
    [response.json()] and [update] settle in turn. *)
Definition firstDelivered : list Action :=
  [Configure reportingConfig; SetOnLine true; OnlineEvent;
   Resume 0 Fulfilled; Resume 0 (FulfilledResponse response200);
   Resume 0 Fulfilled; Resume 0 Fulfilled].

(** The server answers the first of the two queued requests with 404:
    [get], [fetch] and [update] settle in turn. *)
Definition firstRejected : list Action :=
  [Configure reportingConfig; OnlineEvent;
   Resume 0 Fulfilled; Resume 0 (FulfilledResponse response404);
   Resume 0 Fulfilled].

(** A subscriber watches one request being enqueued online and delivered,
    as in the test "should notify subscribers of sync status". *)
Definition watchedDelivery : list Action :=
  [Subscribe 7%nat; AddRequest initA "a" 1; Resume 0 Fulfilled;
   Resume 0 Fulfilled; Resume 0 (FulfilledResponse response200);
   Resume 0 Fulfilled; Resume 0 Fulfilled].

(** What may happen afterwards: reconnections, another request. *)
Definition laterOn : list Action :=
  [OnlineEvent; AddRequest initB "b" 2; Resume 0 Fulfilled; OnlineEvent].

(** The pass over the two queued requests, at its [await fetch(...)] for the
    first. *)
Definition fetchInFlight : World :=
  afterGet (Some [reqA; reqB]) (setSyncing true (twoQueued true)).

(** The same pass with [authConfig], at its [await prepareHeaders()]. *)
Definition headersAwaited : World :=
  afterGet (Some [reqA; reqB])
    (setSyncing true (setConfig authConfig (twoQueued true))).

(** ** Further notions: what a step may do *)

(** An effect the engine may produce in world [w]: a log line only in debug
    mode, a callback only if it is the configured one, a status call only to
    a subscriber. *)
Definition licensed (w : World) (e : Event) : Prop :=
  match e with
  | EvListener cb _ => cb ∈ listeners w
  | EvLog _ => debug (config w) = true
  | EvPrepareHeaders f => prepareHeaders (config w) = Some f
  | EvOnSuccess f _ _ => onSuccess (config w) = Some f
  | EvOnError f _ _ => onError (config w) = Some f
  | EvFetch _ _ _ _ => True
  | EvSetTimeout _ => True
  end.

(** From [w] to [w'] the engine kept its configuration and subscribers and
    added only licensed effects to the trace. *)
Definition emits (w w' : World) : Prop :=
  config w' = config w
  ∧ listeners w' = listeners w
  ∧ ∃ evs, trace w' = trace w ++ evs ∧ Forall (licensed w) evs.

(** How a drain pass may change the persisted queue. *)
Definition queueStep (q q' : list RequestPayload) : Prop :=
  q' = q
  ∨ q' = drop 1 q
  ∨ ∃ req, q' = incrementHead req q.

Definition isLog (e : Event) : bool :=
  match e with EvLog _ => true | _ => false end.

(** The console output, in order. *)
Definition logs (tr : list Event) : list Event := List.filter isLog tr.

(** No pass is in flight and the browser reports no network. *)
Definition offlineQuiet (w : World) : Prop :=
  onLine w = false ∧ List.filter holdsGuard (tasks w) = [].

(** What settles while one request is enqueued online and delivered: the
    continuation of [addRequest], [get], [prepareHeaders] when one is
    configured, [fetch], [response.json()] and [update]. *)
Definition enqueueAndDeliver (req : RequestInit) (uuid : string) (now : N)
    (c : SyncConfig) (dynamicHeaders : Headers) (response : Response)
    : list Action :=
  [AddRequest req uuid now; Resume 0 Fulfilled; Resume 0 Fulfilled]
  ++ match prepareHeaders c with
     | Some _ => [Resume 0 (FulfilledHeaders dynamicHeaders)]
     | None => []
     end
  ++ [Resume 0 (FulfilledResponse response); Resume 0 Fulfilled;
      Resume 0 Fulfilled].

(** The item after [k] failed attempts. *)
Definition retried (k : nat) (req : RequestPayload) : RequestPayload :=
  {| id := id req; url := url req; method := method req; body := body req;
     headers := headers req; timestamp := timestamp req;
     retryCount := retryCount req + N.of_nat k |}.

(** One more attempt on the head item: the retry timer fires, then [get],
    [fetch] and the [update] of [handleRetry] settle. *)
Definition retryRound (response : Response) : list Action :=
  [TimerFires 0; Resume 0 Fulfilled; Resume 0 (FulfilledResponse response);
   Resume 0 Fulfilled].

Fixpoint retryRounds (k : nat) (response : Response) : list Action :=
  match k with
  | O => []
  | S k' => retryRound response ++ retryRounds k' response
  end.

(** The engine between two attempts on [req]: idle, online, one retry timer
    pending. *)
Definition awaitingRetry (req : RequestPayload) (rest : list RequestPayload)
    (w : World) : Prop :=
  isSyncing w = false
  ∧ tasks w = []
  ∧ onLine w = true
  ∧ prepareHeaders (config w) = None
  ∧ store w = Some (req :: rest)
  ∧ length (timers w) = 1%nat.

(** What a scenario needs to know of a world: the engine's flag, the
    suspended activations, the store, the timers, the configuration, the
    network status, and the trace read through its projections. *)
Record View := mkView {
  v_syncing : bool;
  v_tasks : list Task;
  v_store : option (list RequestPayload);
  v_timers : list N;
  v_config : SyncConfig;
  v_online : bool;
  v_fetches : list Event;
  v_successes : list Event;
  v_errors : list Event;
  v_timeouts : list Event
}.

Definition view (w : World) : View :=
  {| v_syncing := isSyncing w; v_tasks := tasks w; v_store := store w;
     v_timers := timers w; v_config := config w; v_online := onLine w;
     v_fetches := fetches (trace w);
     v_successes := successesReported (trace w);
     v_errors := errorsReported (trace w);
     v_timeouts := List.filter isSetTimeout (trace w) |}.

(** ** Retry-class outcomes *)

(** The outcomes of an attempt on [currentReq] that the inner [catch] sends
    to [handleRetry]: a response with [ok = false] and a status outside
    400-499 (or none), or a rejection of [fetch] or of [prepareHeaders] with
    an error whose message does not contain "Client Error". *)
Definition retryClass (t : Task) (o : Settled) (currentReq : RequestPayload)
    : Prop :=
  (t = PQ_fetch currentReq
   ∧ ∃ response,
       o = FulfilledResponse response
       ∧ ok response = false
       ∧ ∀ s, status response = Some s → s < 400 ∨ 500 ≤ s)
  ∨ ((t = PQ_fetch currentReq ∨ t = PQ_headers currentReq)
     ∧ ∃ message,
         o = Rejected (JsError message)
         ∧ includes "Client Error" message = false).
(** * Properties *)

(** ** Checks on concrete values *)

Example showStatus_404 : showStatus (Some 404) = "404".
Proof. reflexivity. Qed.

Example includes_middle : includes "nt Er" "Client Error 404: x" = true.
Proof. reflexivity. Qed.

Example includes_absent : includes "Client Error" "Failed to fetch" = false.
Proof. reflexivity. Qed.

Example backoff_sequence :
  map (λ n, backoffDelay
              {| id := "a"; url := "/"; method := POST; body := None;
                 headers := None; timestamp := 0; retryCount := n |})
      [0; 1; 2; 3; 4; 5; 6]
  = [2000; 4000; 8000; 16000; 30000; 30000; 30000].
Proof. reflexivity. Qed.

(** A redirect that [fetch] did not follow is thrown as a server error. *)
Example redirect_is_retried :
  tasks (afterFetch reqA response301 (setSyncing true (twoQueued true)))
    = [HR_update reqA].
Proof. vm_compute. reflexivity. Qed.

(** ** Backoff *)

Lemma backoffDelay_eq (req : RequestPayload) :
  backoffDelay req = N.min (1000 * 2 ^ (retryCount req + 1)) 30000.
Proof. reflexivity. Qed.

Lemma backoffDelay_cap (req : RequestPayload) : backoffDelay req ≤ 30000.
Proof. unfold backoffDelay. apply N.le_min_r. Qed.

Lemma backoffDelay_mono (req req' : RequestPayload) :
  retryCount req ≤ retryCount req' → backoffDelay req ≤ backoffDelay req'.
Proof.
  intros Hle. unfold backoffDelay.
  apply N.min_le_compat_r, N.mul_le_mono_l, N.pow_le_mono_r; lia.
Qed.

Lemma handleRetry_resume_timers (req : RequestPayload) (w : World) :
  timers (handleRetry_resume req w) = timers w ++ [backoffDelay req].
Proof. reflexivity. Qed.

(** Calling the subscribers adds nothing to a projection of the trace that
    ignores them. *)
Lemma filter_listener_calls (p : Event → bool) (b : bool) (l : list nat) :
  (∀ cb, p (EvListener cb b) = false) →
  List.filter p (map (λ cb, EvListener cb b) l) = [].
Proof.
  intros Hp. induction l as [|cb l IH]; cbn; [reflexivity |].
  rewrite Hp. exact IH.
Qed.

(** ** The retry increment *)

Lemma incrementHead_tail (req : RequestPayload) (old : list RequestPayload) :
  drop 1 (incrementHead req old) = drop 1 old.
Proof.
  destruct old as [|head rest]; cbn; [reflexivity |].
  destruct (decide (id head = id req)); reflexivity.
Qed.

Lemma incrementHead_ids (req : RequestPayload) (old : list RequestPayload) :
  map id (incrementHead req old) = map id old.
Proof.
  destruct old as [|head rest]; cbn; [reflexivity |].
  destruct (decide (id head = id req)); reflexivity.
Qed.

Lemma handleRetry_store (req : RequestPayload) (w : World) :
  store (handleRetry req w) = retryUpdater req (store w).
Proof.
  destruct w as [sy ls [ph os oe dbg] st ol ts tm tr].
  unfold handleRetry, update, log; cbn.
  destruct dbg, st; reflexivity.
Qed.

Lemma handleRetry_silent (req : RequestPayload) (w : World) :
  errorsReported (trace (handleRetry req w)) = errorsReported (trace w).
Proof.
  destruct w as [sy ls [ph os oe dbg] st ol ts tm tr].
  unfold handleRetry, update, log, errorsReported; cbn.
  destruct dbg, st; cbn; rewrite ?List.filter_app, ?app_nil_r; reflexivity.
Qed.

(** C6. The increment [handleRetry] writes to the store goes to the stored
    head, and only when that head carries the [id] of the attempted item.
    When the stored head has another [id], or the stored queue is empty, the
    store keeps its value and nothing is reported; the items behind the head
    are never touched. *)
Theorem retry_increment_only_on_attempted_head :
  ∀ (req : RequestPayload) (w : World) (old : list RequestPayload),
    store w = Some old →
    (∀ head rest, old = head :: rest → id head = id req →
       store (handleRetry req w)
         = Some ({| id := id head; url := url head; method := method head;
                    body := body head; headers := headers head;
                    timestamp := timestamp head;
                    retryCount := retryCount head + 1 |} :: rest))
    ∧ (∀ head rest, old = head :: rest → id head ≠ id req →
         store (handleRetry req w) = Some old)
    ∧ (old = [] → store (handleRetry req w) = Some [])
    ∧ (∃ new, store (handleRetry req w) = Some new
              ∧ drop 1 new = drop 1 old
              ∧ map id new = map id old)
    ∧ errorsReported (trace (handleRetry req w)) = errorsReported (trace w).
Proof.
  intros req w old Hstore.
  rewrite handleRetry_store, Hstore. cbn.
  split; [| split; [| split; [| split]]].
  - intros head rest -> Hid. cbn.
    destruct (decide (id head = id req)); [reflexivity | contradiction].
  - intros head rest -> Hid. cbn.
    destruct (decide (id head = id req)); [contradiction | reflexivity].
  - intros ->. reflexivity.
  - exists (incrementHead req old).
    split; [reflexivity |].
    split; [apply incrementHead_tail | apply incrementHead_ids].
  - apply handleRetry_silent.
Qed.

Lemma retry_increment_only_on_attempted_head_witness :
  store (handleRetry reqB (initWorld (Some [reqA; reqB]) true))
    = Some [reqA; reqB].
Proof.
  refine (proj1 (proj2
    (retry_increment_only_on_attempted_head reqB
       (initWorld (Some [reqA; reqB]) true) [reqA; reqB] eq_refl))
    reqA [reqB] eq_refl _).
  discriminate.
Defined.

(** ** Headers *)

Lemma mergeHeaders_lookup (static : option Headers) (dynamicHeaders : Headers)
    (k : string) :
  mergeHeaders static dynamicHeaders !! k =
    match dynamicHeaders !! k with
    | Some v => Some v
    | None =>
        match default ∅ static !! k with
        | Some v => Some v
        | None =>
            if decide (k = "Content-Type") then Some "application/json"
            else None
        end
    end.
Proof.
  unfold mergeHeaders. rewrite !lookup_union, lookup_singleton.
  destruct (dynamicHeaders !! k) as [v|]; [apply union_Some_l |].
  rewrite (left_id None _).
  destruct (default ∅ static !! k) as [v|]; [apply union_Some_l |].
  rewrite (left_id None _).
  destruct (decide ("Content-Type" = k)) as [<-|Hne], (decide _);
    congruence.
Qed.

(** C7. The headers of every [fetch] are the default content type, then the
    item's own headers, then the headers [prepareHeaders] resolved with
    (none when it is not configured), a later source replacing an earlier
    one on the same name.  [prepareHeaders] is called when the pass picks
    the head item, and the [fetch] is issued in the very run that receives
    its result. *)
Theorem fetch_headers_default_static_dynamic :
  ∀ (currentReq : RequestPayload) (rest : list RequestPayload)
    (v : option (list RequestPayload)) (w : World),
    queueOf v = currentReq :: rest →
    (* the merge *)
    (∀ (dynamicHeaders : Headers) (k : string),
       mergeHeaders (headers currentReq) dynamicHeaders !! k =
         match dynamicHeaders !! k with
         | Some x => Some x
         | None =>
             match default ∅ (headers currentReq) !! k with
             | Some x => Some x
             | None =>
                 if decide (k = "Content-Type") then Some "application/json"
                 else None
             end
         end)
    (* no provider: the request goes out with no dynamic headers *)
    ∧ (prepareHeaders (config w) = None →
         fetches (trace (afterGet v w))
           = fetches (trace w)
               ++ [EvFetch (url currentReq) (method currentReq)
                     (mergeHeaders (headers currentReq) ∅)
                     (body currentReq)])
    (* a provider: it is called, and nothing is sent before it answers *)
    ∧ (∀ f, prepareHeaders (config w) = Some f →
         fetches (trace (afterGet v w)) = fetches (trace w)
         ∧ last (trace (afterGet v w)) = Some (EvPrepareHeaders f)
         ∧ tasks (afterGet v w) = tasks w ++ [PQ_headers currentReq])
    (* its answer goes into the request sent at once *)
    ∧ (∀ (dynamicHeaders : Headers) (w' : World),
         ∃ w'',
           resume (PQ_headers currentReq) (FulfilledHeaders dynamicHeaders) w'
             = Some w''
           ∧ trace w''
             = trace w'
                 ++ [EvFetch (url currentReq) (method currentReq)
                       (mergeHeaders (headers currentReq) dynamicHeaders)
                       (body currentReq)]).
Proof.
  intros currentReq rest v w Hq.
  split; [intros; apply mergeHeaders_lookup |].
  destruct w as [sy ls [ph os oe dbg] st ol ts tm tr].
  unfold afterGet, queueOf in *. rewrite Hq.
  unfold log, callFetch, fetches, suspend, emit; cbn.
  split; [| split].
  - intros ->. destruct dbg; cbn;
      rewrite !List.filter_app; cbn; rewrite ?app_nil_r; reflexivity.
  - intros f ->. destruct dbg; cbn;
      rewrite ?List.filter_app; cbn; rewrite ?app_nil_r;
      (split; [reflexivity | split; [| reflexivity]]);
      rewrite ?app_assoc; apply last_snoc.
  - intros dynamicHeaders w'. eexists. split; reflexivity.
Qed.

Lemma fetch_headers_default_static_dynamic_witness :
  fetches (trace (afterGet (Some [reqB; reqA])
                    (initWorld (Some [reqB; reqA]) true)))
    = [EvFetch "/api/2" PUT
         (mergeHeaders (Some {[ "X-Trace" := "b" ]}) ∅) (Some "[2]")].
Proof.
  refine (proj1 (proj2
    (fetch_headers_default_static_dynamic reqB [reqA] (Some [reqB; reqA])
       (initWorld (Some [reqB; reqA]) true) eq_refl)) eq_refl).
Defined.

(** ** Classifying a failure by its message *)

Lemma mentions_append (c : ascii) (s t : string) :
  mentions c (s +:+ t) = mentions c s || mentions c t.
Proof.
  induction s as [|a s IH]; simpl; [reflexivity |].
  rewrite IH. apply orb_assoc.
Qed.

Lemma startsWith_append (needle rest : string) :
  startsWith needle (needle +:+ rest) = true.
Proof.
  induction needle as [|a needle IH]; simpl; [reflexivity |].
  rewrite Ascii.eqb_refl. exact IH.
Qed.

Lemma includes_unfold (needle hay : string) :
  includes needle hay =
    startsWith needle hay ||
    match hay with
    | EmptyString => false
    | String _ hay' => includes needle hay'
    end.
Proof. destruct hay; reflexivity. Qed.

Lemma includes_prefix (needle rest : string) :
  includes needle (needle +:+ rest) = true.
Proof. rewrite includes_unfold, startsWith_append. reflexivity. Qed.

(** A text that lacks the first character of [needle] does not include
    [needle]. *)
Lemma includes_without_first (c : ascii) (needle hay : string) :
  mentions c hay = false → includes (String c needle) hay = false.
Proof.
  induction hay as [|a hay IH]; [reflexivity |].
  simpl mentions. intros [Hc Hrest]%orb_false_elim.
  rewrite includes_unfold, (IH Hrest). simpl startsWith.
  rewrite Hc. reflexivity.
Qed.

Lemma mentions_uint (c : ascii) (d : Decimal.uint) :
  mentions c "0123456789" = false →
  mentions c (NilEmpty.string_of_uint d) = false.
Proof.
  intros Hc. simpl in Hc.
  repeat (apply orb_false_elim in Hc as [? Hc]).
  induction d; simpl; rewrite ?IHd, ?orb_false_r; assumption || reflexivity.
Qed.

Lemma mentions_showStatus (s : option N) :
  mentions "C" (showStatus s) = false.
Proof.
  destruct s as [n|]; [| reflexivity].
  apply mentions_uint. reflexivity.
Qed.

Lemma serverError_not_clientError (s : option N) :
  includes "Client Error" ("Server Error " +:+ showStatus s) = false.
Proof.
  apply includes_without_first.
  rewrite mentions_append, mentions_showStatus. reflexivity.
Qed.

Lemma clientError_is_clientError (s : option N) (text : string) :
  includes "Client Error"
    ("Client Error " +:+ showStatus s +:+ ": " +:+ text) = true.
Proof.
  change ("Client Error " +:+ showStatus s +:+ ": " +:+ text)
    with ("Client Error" +:+ (" " +:+ showStatus s +:+ ": " +:+ text)).
  apply includes_prefix.
Qed.

(** The two throws of lines 91-100, as the inner [catch] sees them. *)
Lemma afterFetch_not_ok (currentReq : RequestPayload) (response : Response)
    (w : World) :
  ok response = false →
  afterFetch currentReq response w =
    innerCatch
      (JsError
         (if match status response with
             | Some s => (400 <=? s) && (s <? 500)
             | None => false
             end
          then "Client Error " +:+ showStatus (status response) +:+ ": "
               +:+ statusText response
          else "Server Error " +:+ showStatus (status response)))
      currentReq w.
Proof.
  intros Hok. unfold afterFetch. rewrite Hok. cbn.
  destruct (match status response with Some _ => _ | None => _ end);
    reflexivity.
Qed.

(** What the retry branch of the inner [catch] leaves behind. *)
Lemma retry_branch (currentReq : RequestPayload) (rest : list RequestPayload)
    (w : World) :
  store w = Some (currentReq :: rest) →
  let w' := notifyListeners (handleRetry currentReq w) in
  store w'
    = Some ({| id := id currentReq; url := url currentReq;
               method := method currentReq; body := body currentReq;
               headers := headers currentReq;
               timestamp := timestamp currentReq;
               retryCount := retryCount currentReq + 1 |} :: rest)
  ∧ tasks w' = tasks w ++ [HR_update currentReq]
  ∧ isSyncing w' = isSyncing w
  ∧ timers w' = timers w
  ∧ errorsReported (trace w') = errorsReported (trace w)
  ∧ fetches (trace w') = fetches (trace w).
Proof.
  destruct w as [sy ls [ph os oe dbg] st ol ts tm tr]. cbn.
  intros ->.
  unfold handleRetry, update, log, notifyListeners, errorsReported, fetches.
  destruct dbg; cbn;
    (destruct (decide (id currentReq = id currentReq)); [| contradiction]);
    cbn; rewrite !List.filter_app, !filter_listener_calls by reflexivity;
    cbn; rewrite ?app_nil_r; repeat split; reflexivity.
Qed.

(** The pending [handleRetry] activation, once resumed, releases the guard
    and arms the timer; the queue is left alone. *)
Lemma retry_branch_resumed (currentReq : RequestPayload)
    (rest : list RequestPayload) (w : World) :
  store w = Some (currentReq :: rest) →
  let w' := notifyListeners (handleRetry currentReq w) in
  ∃ w'',
    step (Resume (length (tasks w)) Fulfilled) w' = Some w''
    ∧ store w'' = store w'
    ∧ tasks w'' = tasks w
    ∧ isSyncing w'' = false
    ∧ timers w'' = timers w ++ [backoffDelay currentReq]
    ∧ errorsReported (trace w'') = errorsReported (trace w)
    ∧ fetches (trace w'') = fetches (trace w).
Proof.
  intros Hstore.
  destruct (retry_branch currentReq rest w Hstore)
    as (Hst & Hts & Hsy & Htm & Herr & Hfe).
  cbv zeta.
  generalize dependent (notifyListeners (handleRetry currentReq w)).
  intros w' Hst Hts Hsy Htm Herr Hfe.
  destruct w' as [sy ls cfg st ol ts tm tr]. cbn in *. subst ts tm.
  unfold step. cbn. rewrite list_lookup_middle by reflexivity.
  rewrite delete_middle, app_nil_r. cbn.
  eexists. split; [reflexivity |].
  unfold handleRetry_resume, notifyListeners, errorsReported, fetches in *.
  cbn.
  rewrite !List.filter_app, !filter_listener_calls by reflexivity.
  cbn. rewrite !app_nil_r. repeat split; assumption || reflexivity.
Qed.

(** A response with [ok = false] and a status outside 400-499 takes the
    retry branch. *)
Lemma server_class_response_retried :
  ∀ (currentReq : RequestPayload) (rest : list RequestPayload)
    (response : Response) (w : World),
    ok response = false →
    (∀ s, status response = Some s → s < 400 ∨ 500 ≤ s) →
    store w = Some (currentReq :: rest) →
    ∃ w' w'',
      resume (PQ_fetch currentReq) (FulfilledResponse response) w = Some w'
      ∧ step (Resume (length (tasks w)) Fulfilled) w' = Some w''
      ∧ tasks w' = tasks w ++ [HR_update currentReq]
      ∧ map id (queueOf (store w')) = map id (currentReq :: rest)
      ∧ store w''
        = Some ({| id := id currentReq; url := url currentReq;
                   method := method currentReq; body := body currentReq;
                   headers := headers currentReq;
                   timestamp := timestamp currentReq;
                   retryCount := retryCount currentReq + 1 |} :: rest)
      ∧ timers w'' = timers w ++ [backoffDelay currentReq]
      ∧ errorsReported (trace w') = errorsReported (trace w)
      ∧ errorsReported (trace w'') = errorsReported (trace w).
Proof.
  intros currentReq rest response w Hok Hstatus Hstore.
  assert (Hclass :
    match status response with
    | Some s => (400 <=? s) && (s <? 500)
    | None => false
    end = false).
  { destruct (status response) as [s|]; [| reflexivity].
    destruct (Hstatus s eq_refl) as [Hlt | Hge].
    - apply andb_false_intro1, N.leb_gt, Hlt.
    - apply andb_false_intro2, N.ltb_ge, Hge. }
  assert (Hw : afterFetch currentReq response w
               = notifyListeners (handleRetry currentReq w)).
  { rewrite afterFetch_not_ok, Hclass by exact Hok.
    unfold innerCatch. rewrite serverError_not_clientError. reflexivity. }
  destruct (retry_branch currentReq rest w Hstore)
    as (Hst & Hts & _ & _ & Herr & _).
  destruct (retry_branch_resumed currentReq rest w Hstore)
    as (w'' & Hstep & Hst'' & _ & _ & Htm & Herr'' & _).
  exists (notifyListeners (handleRetry currentReq w)), w''.
  cbn [resume]. rewrite Hw, Hst'', Hst.
  repeat split; assumption || reflexivity.
Qed.

(** A rejection whose message does not read as a client error takes the
    retry branch. *)
Lemma header_rejection_retried :
  ∀ (currentReq : RequestPayload) (rest : list RequestPayload)
    (message : string) (w : World),
    includes "Client Error" message = false →
    store w = Some (currentReq :: rest) →
    ∃ w' w'',
      resume (PQ_headers currentReq) (Rejected (JsError message)) w = Some w'
      ∧ step (Resume (length (tasks w)) Fulfilled) w' = Some w''
      ∧ tasks w' = tasks w ++ [HR_update currentReq]
      ∧ map id (queueOf (store w')) = map id (currentReq :: rest)
      ∧ store w''
        = Some ({| id := id currentReq; url := url currentReq;
                   method := method currentReq; body := body currentReq;
                   headers := headers currentReq;
                   timestamp := timestamp currentReq;
                   retryCount := retryCount currentReq + 1 |} :: rest)
      ∧ timers w'' = timers w ++ [backoffDelay currentReq]
      ∧ errorsReported (trace w'') = errorsReported (trace w)
      ∧ fetches (trace w'') = fetches (trace w).
Proof.
  intros currentReq rest message w Hmsg Hstore.
  destruct (retry_branch currentReq rest w Hstore)
    as (Hst & Hts & _ & _ & _ & _).
  destruct (retry_branch_resumed currentReq rest w Hstore)
    as (w'' & Hstep & Hst'' & _ & _ & Htm & Herr'' & Hfe'').
  exists (notifyListeners (handleRetry currentReq w)), w''.
  cbn [resume innerCatch]. rewrite Hmsg, Hst'', Hst.
  repeat split; assumption || reflexivity.
Qed.

(** ** Enqueueing while offline *)

Lemma awaitAddRequest_offline (call : RequestInit * string * N) (w : World) :
  onLine w = false →
  ∃ w',
    awaitAddRequest call w = Some w'
    ∧ store w'
      = Some (queueOf (store w) ++ [newPayload call.1.1 call.1.2 call.2])
    ∧ onLine w' = false
    ∧ tasks w' = tasks w
    ∧ timers w' = timers w
    ∧ isSyncing w' = isSyncing w
    ∧ fetches (trace w') = fetches (trace w).
Proof.
  destruct call as [[req uuid] now].
  destruct w as [sy ls [ph os oe dbg] st ol ts tm tr]. cbn.
  intros ->. unfold addRequest, update. cbn.
  rewrite list_lookup_middle by reflexivity.
  rewrite delete_middle, app_nil_r. cbn.
  unfold addRequest_resume, log. cbn.
  destruct dbg; cbn; eexists; (split; [reflexivity |]); cbn;
    unfold fetches; rewrite ?List.filter_app, ?app_nil_r;
    repeat split; reflexivity.
Qed.

(** C3. Enqueue calls made while the network is unreachable append their
    requests to the persisted queue in the order submitted, each with the
    [id] and [timestamp] drawn for that call and [retryCount = 0], and send
    nothing. *)
Theorem offline_enqueue_keeps_order :
  ∀ (calls : list (RequestInit * string * N)) (w : World),
    onLine w = false →
    ∃ w',
      enqueueAll calls w = Some w'
      ∧ queueOf (store w')
        = queueOf (store w)
            ++ map (λ call : RequestInit * string * N,
                      {| id := call.1.2; url := init_url call.1.1;
                         method := init_method call.1.1;
                         body := init_body call.1.1;
                         headers := init_headers call.1.1;
                         timestamp := call.2; retryCount := 0 |}) calls
      ∧ fetches (trace w') = fetches (trace w)
      ∧ tasks w' = tasks w
      ∧ timers w' = timers w
      ∧ isSyncing w' = isSyncing w.
Proof.
  induction calls as [|call calls IH]; intros w Hoff.
  - exists w. cbn. rewrite app_nil_r. repeat split; reflexivity.
  - destruct (awaitAddRequest_offline call w Hoff)
      as (w1 & Hcall & Hst1 & Hoff1 & Hts1 & Htm1 & Hsy1 & Hfe1).
    destruct (IH w1 Hoff1) as (w' & Hrun & Hst & Hfe & Hts & Htm & Hsy).
    exists w'. cbn [enqueueAll]. rewrite Hcall.
    split; [exact Hrun |].
    split; [| repeat split; congruence].
    rewrite Hst, Hst1. unfold queueOf at 1. simpl.
    rewrite <- app_assoc. reflexivity.
Qed.

Lemma offline_enqueue_keeps_order_witness :
  ∃ w',
    enqueueAll [(initA, "a", 1); (initB, "b", 2)] (initWorld None false)
      = Some w'
    ∧ queueOf (store w') = [reqA; reqB]
    ∧ fetches (trace w') = [].
Proof.
  destruct (offline_enqueue_keeps_order [(initA, "a", 1); (initB, "b", 2)]
              (initWorld None false) eq_refl)
    as (w' & H1 & H2 & H3 & _).
  exists w'. repeat split; assumption.
Defined.

(** ** One pass at a time *)

Lemma filter_delete_other {A} (p : A → bool) (l : list A) (i : nat) (t : A) :
  l !! i = Some t → p t = false →
  List.filter p (delete i l) = List.filter p l.
Proof.
  revert i. induction l as [|x l IH]; intros [|i] Hi Hp; try discriminate.
  - simpl in Hi. injection Hi as ->. simpl. rewrite Hp. reflexivity.
  - simpl in Hi. simpl. rewrite (IH i Hi Hp). reflexivity.
Qed.

Lemma filter_delete_found {A} (p : A → bool) (l : list A) (i : nat) (t : A) :
  l !! i = Some t → p t = true →
  ∃ before after,
    List.filter p l = before ++ t :: after
    ∧ List.filter p (delete i l) = before ++ after.
Proof.
  revert i. induction l as [|x l IH]; intros [|i] Hi Hp; try discriminate.
  - simpl in Hi. injection Hi as ->. exists [], (List.filter p l).
    simpl. rewrite Hp. split; reflexivity.
  - simpl in Hi. destruct (IH i Hi Hp) as (before & after & H1 & H2).
    simpl. destruct (p x).
    + exists (x :: before), after. rewrite H1, H2. split; reflexivity.
    + exists before, after. split; assumption.
Qed.

(** Taking the activation that holds the guard out of the pool leaves no
    holder behind. *)
Lemma Inv_take_holder (w : World) (i : nat) (t : Task) :
  Inv w → tasks w !! i = Some t → holdsGuard t = true →
  List.filter holdsGuard (delete i (tasks w)) = []
  ∧ isSyncing w = true
  ∧ agrees (store w) t.
Proof.
  unfold Inv. intros HI Hi Ht.
  destruct (filter_delete_found holdsGuard _ i t Hi Ht)
    as (before & after & H1 & H2).
  rewrite H1 in HI. rewrite H2.
  destruct before as [|b [|b' before]]; cbn in HI.
  - destruct after; [| contradiction]. destruct HI. auto.
  - contradiction.
  - contradiction.
Qed.

Lemma Inv_take_other (w : World) (i : nat) (t : Task) :
  Inv w → tasks w !! i = Some t → holdsGuard t = false →
  Inv (setTasks (delete i (tasks w)) w).
Proof.
  unfold Inv. intros HI Hi Ht. cbn.
  rewrite (filter_delete_other holdsGuard _ i t Hi Ht). exact HI.
Qed.

Lemma Inv_idle (w : World) :
  Inv w → isSyncing w = false → List.filter holdsGuard (tasks w) = [].
Proof.
  unfold Inv. intros HI Hs.
  destruct (List.filter holdsGuard (tasks w)) as [|t [|t' l]];
    [reflexivity | | contradiction].
  destruct HI as [HI _]. congruence.
Qed.

(** Opening a world into its fields, and reading a projection of a trace
    that has grown by log lines and subscriber calls. *)
Ltac open_world w :=
  destruct w as [sy ls [ph os oe dbg] st ol ts tm tr]; cbn in *.

Ltac read_trace :=
  unfold fetches, releases, errorsReported, successesReported;
  rewrite ?List.filter_app;
  rewrite ?filter_listener_calls by reflexivity;
  cbn [List.filter isFetch isRelease isOnError isOnSuccess app];
  rewrite ?app_nil_r.

Lemma Inv_free (w : World) :
  List.filter holdsGuard (tasks w) = [] → Inv w.
Proof. unfold Inv. intros ->. exact I. Qed.

Lemma Inv_holder (w : World) (ts : list Task) (t : Task) :
  tasks w = ts ++ [t] → List.filter holdsGuard ts = [] →
  holdsGuard t = true → isSyncing w = true → agrees (store w) t → Inv w.
Proof.
  unfold Inv. intros -> Hts Ht Hs Ha.
  rewrite List.filter_app, Hts. cbn. rewrite Ht. auto.
Qed.

Lemma free_snoc (ts : list Task) (t : Task) :
  List.filter holdsGuard ts = [] → holdsGuard t = false →
  List.filter holdsGuard (ts ++ [t]) = [].
Proof.
  intros Hts Ht. rewrite List.filter_app, Hts. cbn. rewrite Ht. reflexivity.
Qed.

Lemma agrees_append (s : option (list RequestPayload))
    (payload : RequestPayload) (t : Task) :
  agrees s t → agrees (Some (default [] s ++ [payload])) t.
Proof.
  destruct t as [v|r|r|r ?|r|r|r|r]; cbn; try (intros; exact I).
  - destruct (queueOf v) as [|head ?]; [intros; exact I |].
    intros [rest ->]. cbn. eauto.
  - intros [rest ->]. cbn. eauto.
  - intros [rest ->]. cbn. eauto.
  - intros [rest ->]. cbn. eauto.
Qed.

(** [processQueue] starts a pass only when nobody holds the guard, and sends
    nothing by itself. *)
Lemma processQueue_Inv (w : World) : Inv w → Inv (processQueue w).
Proof.
  intros HI. unfold processQueue.
  destruct (isSyncing w) eqn:Hs; [exact HI |].
  destruct (onLine w); [| exact HI]. cbn.
  apply (Inv_holder _ (tasks w) (PQ_get (store w))); cbn; try reflexivity.
  - apply Inv_idle; assumption.
  - destruct (store w) as [[|head rest]|]; cbn; eauto.
Qed.

Lemma processQueue_quiet (w : World) :
  store (processQueue w) = store w
  ∧ timers (processQueue w) = timers w
  ∧ fetches (trace (processQueue w)) = fetches (trace w).
Proof.
  unfold processQueue.
  destruct (isSyncing w || negb (onLine w)); [auto |].
  cbn. read_trace. auto.
Qed.

Lemma processQueue_guarded (w : World) :
  isSyncing w = true → processQueue w = w.
Proof. unfold processQueue. intros ->. reflexivity. Qed.

Lemma callFetch_Inv (currentReq : RequestPayload)
    (dynamicHeaders : Headers) (w : World) :
  List.filter holdsGuard (tasks w) = [] → isSyncing w = true →
  (∃ rest, store w = Some (currentReq :: rest)) →
  Inv (callFetch currentReq dynamicHeaders w)
  ∧ sendsOnlyHead w (callFetch currentReq dynamicHeaders w).
Proof.
  intros Hfree Hs [rest Hst]. split.
  - apply (Inv_holder _ (tasks w) (PQ_fetch currentReq)); cbn; eauto.
  - right. exists currentReq, rest, dynamicHeaders.
    cbn. read_trace. auto.
Qed.

Lemma afterGet_Inv (v : option (list RequestPayload)) (w : World) :
  List.filter holdsGuard (tasks w) = [] → isSyncing w = true →
  agrees (store w) (PQ_get v) →
  Inv (afterGet v w) ∧ sendsOnlyHead w (afterGet v w).
Proof.
  intros Hfree Hs Ha. unfold afterGet. cbn in Ha. unfold queueOf in Ha.
  destruct (default [] v) as [|currentReq q].
  - split; [apply Inv_free; exact Hfree | left; cbn; read_trace; reflexivity].
  - destruct Ha as [rest Hst]. open_world w. subst sy st.
    unfold log; destruct dbg, ph as [f|]; cbn.
    all: split;
      [ first [ solve [ apply (Inv_holder _ ts (PQ_headers currentReq));
                        cbn; eauto ]
              | solve [ apply (Inv_holder _ ts (PQ_fetch currentReq));
                        cbn; eauto ] ]
      | unfold sendsOnlyHead; cbn; read_trace; eauto 10 ].
Qed.

Lemma innerCatch_Inv (error : Thrown) (currentReq : RequestPayload)
    (w : World) :
  List.filter holdsGuard (tasks w) = [] → isSyncing w = true →
  Inv (innerCatch error currentReq w)
  ∧ fetches (trace (innerCatch error currentReq w)) = fetches (trace w).
Proof.
  intros Hfree Hs. open_world w. subst sy.
  unfold innerCatch, outerCatch, handleRetry, update, log.
  destruct error as [message|]; [destruct (includes _ message) |].
  - destruct dbg, oe, st; cbn;
      (split; [apply Inv_free; cbn; auto using free_snoc | read_trace; auto]).
  - destruct dbg, st; cbn;
      (split; [| read_trace; auto]);
      first [ solve [ apply Inv_free; assumption ]
            | solve [ apply (Inv_holder _ ts (HR_update currentReq));
                      cbn; auto ] ].
  - cbn. split; [apply Inv_free; assumption | read_trace; auto].
Qed.

Lemma afterFetch_Inv (currentReq : RequestPayload) (response : Response)
    (w : World) :
  List.filter holdsGuard (tasks w) = [] → isSyncing w = true →
  agrees (store w) (PQ_fetch currentReq) →
  Inv (afterFetch currentReq response w)
  ∧ fetches (trace (afterFetch currentReq response w)) = fetches (trace w).
Proof.
  intros Hfree Hs Ha. unfold afterFetch.
  destruct (negb (ok response));
    [destruct (match status response with Some _ => _ | None => _ end) |];
    try (apply innerCatch_Inv; assumption).
  split; [| reflexivity].
  apply (Inv_holder _ (tasks w) (PQ_json currentReq response)); cbn; auto.
Qed.

Lemma afterJson_Inv (currentReq : RequestPayload) (response : Response)
    (w : World) :
  List.filter holdsGuard (tasks w) = [] → isSyncing w = true →
  Inv (afterJson currentReq response w)
  ∧ fetches (trace (afterJson currentReq response w)) = fetches (trace w).
Proof.
  intros Hfree Hs. open_world w. subst sy.
  unfold afterJson, update. destruct os, st; cbn -[innerCatch].
  1, 3: split; [apply Inv_free; cbn; auto using free_snoc
               | read_trace; auto].
  all: match goal with
       | |- Inv (innerCatch ?e ?r ?W) ∧ _ =>
           destruct (innerCatch_Inv e r W) as [HI Hf];
           [assumption | reflexivity |];
           split; [exact HI | rewrite Hf; cbn; read_trace; reflexivity]
       end.
Qed.

Lemma afterPop_Inv (w : World) :
  Inv w →
  Inv (afterPop w) ∧ fetches (trace (afterPop w)) = fetches (trace w).
Proof.
  intros HI. unfold afterPop. split.
  - apply processQueue_Inv in HI. exact HI.
  - cbn. read_trace. apply processQueue_quiet.
Qed.

Lemma handleRetry_resume_Inv (req : RequestPayload) (w : World) :
  List.filter holdsGuard (tasks w) = [] →
  Inv (handleRetry_resume req w)
  ∧ fetches (trace (handleRetry_resume req w)) = fetches (trace w).
Proof.
  intros Hfree. split; [apply Inv_free; exact Hfree |].
  cbn. read_trace. reflexivity.
Qed.

Lemma log_Inv (msg : string) (w : World) : Inv w → Inv (log msg w).
Proof. unfold log. destruct (debug (config w)); auto. Qed.

Lemma log_quiet (msg : string) (w : World) :
  store (log msg w) = store w
  ∧ onLine (log msg w) = onLine w
  ∧ isSyncing (log msg w) = isSyncing w
  ∧ tasks (log msg w) = tasks w
  ∧ timers (log msg w) = timers w
  ∧ fetches (trace (log msg w)) = fetches (trace w)
  ∧ releases (trace (log msg w)) = releases (trace w).
Proof.
  unfold log. destruct (debug (config w)); cbn; read_trace; auto 10.
Qed.

Lemma addRequest_resume_Inv (payload : RequestPayload) (w : World) :
  Inv w →
  Inv (addRequest_resume payload w)
  ∧ fetches (trace (addRequest_resume payload w)) = fetches (trace w).
Proof.
  intros HI. unfold addRequest_resume.
  set (w1 := log _ w).
  assert (HI1 : Inv w1) by (apply log_Inv, HI).
  assert (Hf1 : fetches (trace w1) = fetches (trace w))
    by apply log_quiet.
  destruct (onLine w1); [| auto].
  split; [apply processQueue_Inv, HI1 |].
  rewrite <- Hf1. apply processQueue_quiet.
Qed.

Lemma addRequest_Inv (req : RequestInit) (uuid : string) (now : N)
    (w : World) :
  Inv w →
  Inv (addRequest req uuid now w)
  ∧ fetches (trace (addRequest req uuid now w)) = fetches (trace w).
Proof.
  intros HI. split; [| reflexivity].
  unfold Inv in *. cbn. rewrite List.filter_app. cbn. rewrite app_nil_r.
  destruct (List.filter holdsGuard (tasks w)) as [|t [|t' l]]; auto.
  destruct HI as [Hs Ha]. split; [exact Hs |].
  apply agrees_append, Ha.
Qed.

Lemma timerCallback_Inv (w : World) :
  Inv w →
  Inv (timerCallback w)
  ∧ fetches (trace (timerCallback w)) = fetches (trace w).
Proof.
  intros HI. unfold timerCallback. destruct (onLine w); [| auto].
  split; [apply processQueue_Inv, HI | apply processQueue_quiet].
Qed.

(** Every step keeps the invariant, and sends nothing but the stored head. *)
Lemma step_Inv (a : Action) (w w' : World) :
  Inv w → step a w = Some w' → Inv w' ∧ sendsOnlyHead w w'.
Proof.
  intros HI Hstep. destruct a as [req uuid now|c|cb|cb|b| |i o|i];
    cbn in Hstep.
  - injection Hstep as <-.
    destruct (addRequest_Inv req uuid now w HI). split; [| left]; assumption.
  - injection Hstep as <-. split; [exact HI | left; reflexivity].
  - injection Hstep as <-. unfold subscribe.
    destruct (decide (cb ∈ listeners w));
      (split; [exact HI | left; cbn; read_trace; reflexivity]).
  - injection Hstep as <-. split; [exact HI | left; reflexivity].
  - injection Hstep as <-. split; [exact HI | left; reflexivity].
  - injection Hstep as <-.
    split; [apply processQueue_Inv, HI | left; apply processQueue_quiet].
  - destruct (tasks w !! i) as [t|] eqn:Hi; [| discriminate].
    set (w1 := setTasks (delete i (tasks w)) w) in *.
    destruct (holdsGuard t) eqn:Ht.
    + destruct (Inv_take_holder w i t HI Hi Ht) as (Hfree & Hs & Ha).
      destruct t, o; try discriminate; cbn in Hstep;
        injection Hstep as <-.
      * apply (afterGet_Inv v w1); assumption.
      * apply (callFetch_Inv currentReq dynamicHeaders w1); assumption.
      * destruct (innerCatch_Inv error currentReq w1); auto.
        split; [| left]; assumption.
      * destruct (afterFetch_Inv currentReq response w1); auto.
        split; [| left]; assumption.
      * destruct (innerCatch_Inv error currentReq w1); auto.
        split; [| left]; assumption.
      * destruct (afterJson_Inv currentReq response w1); auto.
        split; [| left]; assumption.
      * destruct (handleRetry_resume_Inv req w1); auto.
        split; [| left]; assumption.
    + pose proof (Inv_take_other w i t HI Hi Ht) as HI1. fold w1 in HI1.
      destruct t, o; try discriminate; cbn in Hstep;
        injection Hstep as <-.
      * destruct (afterPop_Inv w1 HI1). split; [| left]; assumption.
      * destruct (afterPop_Inv w1 HI1). split; [| left]; assumption.
      * destruct (addRequest_resume_Inv payload w1 HI1).
        split; [| left]; assumption.
  - destruct (timers w !! i) as [d|]; [| discriminate].
    injection Hstep as <-.
    destruct (timerCallback_Inv (setTimers (delete i (timers w)) w) HI).
    split; [| left]; assumption.
Qed.

Lemma run_Inv (acts : list Action) (w w' : World) :
  Inv w → run acts w = Some w' → Inv w'.
Proof.
  revert w. induction acts as [|a acts IH]; intros w HI Hrun; cbn in Hrun.
  - injection Hrun as <-. exact HI.
  - destruct (step a w) as [w1|] eqn:Hstep; [| discriminate].
    apply (IH w1); [apply (step_Inv a w w1 HI Hstep) | exact Hrun].
Qed.

Lemma Reachable_Inv (w : World) : Reachable w → Inv w.
Proof.
  intros (persisted & online & acts & Hrun).
  apply (run_Inv acts (initWorld persisted online) w); [exact I | exact Hrun].
Qed.

(** C9. In every reachable state, a step submits at most one request to the
    network, and the request it submits is the item at index 0 of the
    persisted queue, which stays there: no item behind the head is ever
    attempted, whatever was enqueued or retried before. *)
Theorem only_the_persisted_head_is_sent :
  ∀ (w : World) (a : Action) (w' : World),
    Reachable w →
    step a w = Some w' →
    fetches (trace w') = fetches (trace w)
    ∨ ∃ head rest dynamicHeaders,
        store w = Some (head :: rest)
        ∧ store w' = Some (head :: rest)
        ∧ fetches (trace w')
          = fetches (trace w)
              ++ [EvFetch (url head) (method head)
                    (mergeHeaders (headers head) dynamicHeaders)
                    (body head)].
Proof.
  intros w a w' Hreach Hstep.
  apply (step_Inv a w w' (Reachable_Inv w Hreach) Hstep).
Qed.

Lemma only_the_persisted_head_is_sent_witness :
  ∃ w',
    step (Resume 0 Fulfilled) (processQueue (twoQueued true)) = Some w'
    ∧ (fetches (trace w') = fetches (trace (processQueue (twoQueued true)))
       ∨ ∃ head rest dynamicHeaders,
           store (processQueue (twoQueued true)) = Some (head :: rest)
           ∧ store w' = Some (head :: rest)
           ∧ fetches (trace w')
             = fetches (trace (processQueue (twoQueued true)))
                 ++ [EvFetch (url head) (method head)
                       (mergeHeaders (headers head) dynamicHeaders)
                       (body head)]).
Proof.
  eexists. split; [reflexivity |].
  apply (only_the_persisted_head_is_sent
           (processQueue (twoQueued true)) (Resume 0 Fulfilled)).
  - exists (Some [reqA; reqB]), true, [OnlineEvent]. reflexivity.
  - reflexivity.
Defined.

(** ** Retry-class outcomes of a pass *)

(** In a reachable world, the pass that waits for [prepareHeaders] or for
    [fetch] is the only holder of the guard, and its item is the stored
    head. *)
Lemma pending_pass (w : World) (i : nat) (t : Task) :
  Reachable w → tasks w !! i = Some t → holdsGuard t = true →
  List.filter holdsGuard (delete i (tasks w)) = []
  ∧ isSyncing w = true
  ∧ agrees (store w) t.
Proof.
  intros Hreach. apply Inv_take_holder, Reachable_Inv, Hreach.
Qed.

(** C10. A response with [ok = false] whose status is not in 400-499 (a 3xx
    status, a 5xx status, no status field at all) is a retry-class outcome:
    the item stays at the head of the queue with its count incremented,
    [onError] is not called, and the retry is scheduled (the guard is
    released and the timer armed once [handleRetry] has written the
    count). *)
Theorem not_ok_outside_4xx_is_retried :
  ∀ (w : World) (i : nat) (currentReq : RequestPayload)
    (response : Response),
    Reachable w →
    tasks w !! i = Some (PQ_fetch currentReq) →
    ok response = false →
    (∀ s, status response = Some s → s < 400 ∨ 500 ≤ s) →
    ∃ rest w' w'',
      store w = Some (currentReq :: rest)
      ∧ step (Resume i (FulfilledResponse response)) w = Some w'
      ∧ step (Resume (length (delete i (tasks w))) Fulfilled) w' = Some w''
      ∧ tasks w' = delete i (tasks w) ++ [HR_update currentReq]
      ∧ map id (queueOf (store w')) = map id (currentReq :: rest)
      ∧ store w''
        = Some ({| id := id currentReq; url := url currentReq;
                   method := method currentReq; body := body currentReq;
                   headers := headers currentReq;
                   timestamp := timestamp currentReq;
                   retryCount := retryCount currentReq + 1 |} :: rest)
      ∧ timers w'' = timers w ++ [backoffDelay currentReq]
      ∧ errorsReported (trace w') = errorsReported (trace w)
      ∧ errorsReported (trace w'') = errorsReported (trace w).
Proof.
  intros w i currentReq response Hreach Hi Hok Hstatus.
  destruct (pending_pass w i _ Hreach Hi eq_refl) as (_ & _ & rest & Hstore).
  destruct (server_class_response_retried currentReq rest response
              (setTasks (delete i (tasks w)) w) Hok Hstatus Hstore)
    as (w' & w'' & H).
  exists rest, w', w''. split; [exact Hstore |].
  unfold step at 1. rewrite Hi. exact H.
Qed.

Lemma not_ok_outside_4xx_is_retried_witness :
  ∃ w' w'',
    step (Resume 0 (FulfilledResponse responseNoStatus)) fetchInFlight
      = Some w'
    ∧ step (Resume 0 Fulfilled) w' = Some w''
    ∧ map id (queueOf (store w')) = ["a"; "b"]
    ∧ timers w'' = [2000]
    ∧ errorsReported (trace w'') = [].
Proof.
  destruct (not_ok_outside_4xx_is_retried fetchInFlight 0 reqA
              responseNoStatus)
    as (rest & w' & w'' & H0 & H1 & H2 & _ & H3 & _ & H4 & _ & H5).
  - exists (Some [reqA; reqB]), true, [OnlineEvent; Resume 0 Fulfilled].
    vm_compute. reflexivity.
  - reflexivity.
  - reflexivity.
  - intros s Hs. discriminate Hs.
  - injection H0 as <-. exists w', w''.
    split; [exact H1 |]. split; [exact H2 |]. split; [exact H3 |].
    split; [exact H4 | exact H5].
Defined.

(** ** Failure of [prepareHeaders] *)

(** C8, on the code: [prepareHeaders] rejects with an error whose message
    contains "Client Error".  The test of line 113, meant to recognise the
    4xx error thrown at lines 94-96, takes it for a 4xx response: the head
    item is dropped and reported through [onError], and no retry is
    scheduled, although no request was ever sent. *)
Lemma header_failure_named_client_error_is_dropped :
  ∃ w',
    run [Configure authConfig; OnlineEvent; Resume 0 Fulfilled;
         Resume 0 (Rejected tokenError)]
        (initWorld (Some [reqA; reqB]) true) = Some w'
    ∧ store w' = Some [reqB]
    ∧ errorsReported (trace w') = [EvOnError 2 tokenError reqA]
    ∧ fetches (trace w') = []
    ∧ tasks w' = [PQ_drop reqA]
    ∧ timers w' = [].
Proof.
  eexists. split; [vm_compute; reflexivity |].
  repeat split; vm_compute; reflexivity.
Qed.

(** X16. When [prepareHeaders] fails with an error whose message is a
    string that does not contain "Client Error", the outcome is retry-class:
    the item stays at the head of the queue with its count incremented,
    [onError] is not called, nothing is sent, and the retry is scheduled. *)
Theorem header_failure_is_retried :
  ∀ (w : World) (i : nat) (currentReq : RequestPayload) (message : string),
    Reachable w →
    tasks w !! i = Some (PQ_headers currentReq) →
    includes "Client Error" message = false →
    ∃ rest w' w'',
      store w = Some (currentReq :: rest)
      ∧ step (Resume i (Rejected (JsError message))) w = Some w'
      ∧ step (Resume (length (delete i (tasks w))) Fulfilled) w' = Some w''
      ∧ tasks w' = delete i (tasks w) ++ [HR_update currentReq]
      ∧ map id (queueOf (store w')) = map id (currentReq :: rest)
      ∧ store w''
        = Some ({| id := id currentReq; url := url currentReq;
                   method := method currentReq; body := body currentReq;
                   headers := headers currentReq;
                   timestamp := timestamp currentReq;
                   retryCount := retryCount currentReq + 1 |} :: rest)
      ∧ timers w'' = timers w ++ [backoffDelay currentReq]
      ∧ errorsReported (trace w'') = errorsReported (trace w)
      ∧ fetches (trace w'') = fetches (trace w).
Proof.
  intros w i currentReq message Hreach Hi Hmsg.
  destruct (pending_pass w i _ Hreach Hi eq_refl) as (_ & _ & rest & Hstore).
  destruct (header_rejection_retried currentReq rest message
              (setTasks (delete i (tasks w)) w) Hmsg Hstore)
    as (w' & w'' & H).
  exists rest, w', w''. split; [exact Hstore |].
  unfold step at 1. rewrite Hi. exact H.
Qed.

Lemma header_failure_is_retried_witness :
  ∃ w' w'',
    step (Resume 0 (Rejected networkError)) headersAwaited = Some w'
    ∧ step (Resume 0 Fulfilled) w' = Some w''
    ∧ map id (queueOf (store w')) = ["a"; "b"]
    ∧ timers w'' = [2000]
    ∧ errorsReported (trace w'') = [].
Proof.
  destruct (header_failure_is_retried headersAwaited 0 reqA
              "Failed to fetch")
    as (rest & w' & w'' & H0 & H1 & H2 & _ & H3 & _ & H4 & H5 & _).
  - exists (Some [reqA; reqB]), true,
      [Configure authConfig; OnlineEvent; Resume 0 Fulfilled].
    vm_compute. reflexivity.
  - reflexivity.
  - reflexivity.
  - injection H0 as <-. exists w', w''.
    split; [exact H1 |]. split; [exact H2 |]. split; [exact H3 |].
    split; [exact H4 | exact H5].
Defined.

(** ** A pass that removed its item leaves the guard set *)

Lemma filter_nil_lookup {A} (p : A → bool) (l : list A) (i : nat) (t : A) :
  List.filter p l = [] → l !! i = Some t → p t = false.
Proof.
  intros Hnil Hi. destruct (p t) eqn:Hp; [| reflexivity].
  destruct (filter_delete_found p l i t Hi Hp) as (before & after & H1 & _).
  rewrite Hnil in H1. destruct before; discriminate.
Qed.

Lemma staysStalled_refl (w : World) : Stalled w → staysStalled w w.
Proof.
  intros H. repeat split; try apply H.
  exists []. rewrite app_nil_r. reflexivity.
Qed.

Lemma staysStalled_trans (w1 w2 w3 : World) :
  staysStalled w1 w2 → staysStalled w2 w3 → staysStalled w1 w3.
Proof.
  intros (_ & Hf & Hr & more & Hq) (Hs & Hf' & Hr' & more' & Hq').
  repeat split; try apply Hs; try congruence.
  exists (more ++ more'). rewrite Hq', Hq, app_assoc. reflexivity.
Qed.

Lemma Stalled_step (a : Action) (w w' : World) :
  Stalled w → step a w = Some w' → staysStalled w w'.
Proof.
  intros [Hs Hfree] Hstep. open_world w. subst sy.
  unfold staysStalled, Stalled.
  destruct a as [req uuid now|c|cb|cb|b| |i o|i]; cbn in Hstep.
  - injection Hstep as <-. cbn. rewrite free_snoc by auto.
    repeat split. exists [newPayload req uuid now]. reflexivity.
  - injection Hstep as <-. cbn. repeat split; auto.
    exists []. rewrite app_nil_r. reflexivity.
  - injection Hstep as <-. unfold subscribe. cbn.
    destruct (decide (cb ∈ ls)); cbn; read_trace; repeat split; auto;
      exists []; rewrite app_nil_r; reflexivity.
  - injection Hstep as <-. cbn. repeat split; auto.
    exists []. rewrite app_nil_r. reflexivity.
  - injection Hstep as <-. cbn. repeat split; auto.
    exists []. rewrite app_nil_r. reflexivity.
  - injection Hstep as <-. cbn. repeat split; auto.
    exists []. rewrite app_nil_r. reflexivity.
  - destruct (ts !! i) as [t|] eqn:Hi; [| discriminate].
    pose proof (filter_nil_lookup holdsGuard ts i t Hfree Hi) as Ht.
    pose proof (filter_delete_other holdsGuard ts i t Hi Ht) as Hdel.
    rewrite Hfree in Hdel.
    destruct t, o; try discriminate; cbn in Hstep; injection Hstep as <-;
      unfold afterPop, addRequest_resume, log; cbn;
      try destruct dbg; try destruct ol; cbn; read_trace;
      repeat split; auto; exists []; rewrite app_nil_r; reflexivity.
  - destruct (tm !! i) as [d|]; [| discriminate].
    injection Hstep as <-. unfold timerCallback. cbn.
    destruct ol; cbn; repeat split; auto;
      exists []; rewrite app_nil_r; reflexivity.
Qed.

(** Once stalled, always stalled: whatever happens next, nothing is sent and
    no subscriber hears [false]. *)
Lemma Stalled_run (acts : list Action) (w w' : World) :
  Stalled w → run acts w = Some w' → staysStalled w w'.
Proof.
  revert w. induction acts as [|a acts IH]; intros w HS Hrun; cbn in Hrun.
  - injection Hrun as <-. apply staysStalled_refl, HS.
  - destruct (step a w) as [w1|] eqn:Hstep; [| discriminate].
    pose proof (Stalled_step a w w1 HS Hstep) as H1.
    apply (staysStalled_trans w w1 w'); [exact H1 |].
    apply IH; [apply H1 | exact Hrun].
Qed.

(** C1, on the code: two requests are queued, the browser goes online and
    the first delivery succeeds.  [onSuccess] is called and the head is
    removed, but the recursive [processQueue()] meets the guard it set
    itself and returns at once: the second request is not sent in this pass,
    nor ever after, and the queue does not empty. *)
Theorem drain_stops_after_first_success :
  ∃ w1,
    run firstDelivered (twoQueued false) = Some w1
    ∧ fetches (trace w1) = [fetchCall reqA ∅]
    ∧ successesReported (trace w1) = [EvOnSuccess 1 "{}" reqA]
    ∧ store w1 = Some [reqB]
    ∧ isSyncing w1 = true
    ∧ tasks w1 = []
    ∧ timers w1 = []
    ∧ ∀ acts w2,
        run acts w1 = Some w2 →
        fetches (trace w2) = [fetchCall reqA ∅]
        ∧ ∃ more, queueOf (store w2) = reqB :: more.
Proof.
  eexists. split; [vm_compute; reflexivity |].
  do 6 (split; [vm_compute; reflexivity |]).
  intros acts w2 Hrun.
  eapply Stalled_run in Hrun as (_ & Hf & _ & more & Hq);
    [| split; vm_compute; reflexivity].
  split; [exact Hf | exists more; exact Hq].
Qed.

Lemma drain_stops_after_first_success_witness :
  ∃ w1 w2,
    run firstDelivered (twoQueued false) = Some w1
    ∧ run laterOn w1 = Some w2
    ∧ fetches (trace w2) = [fetchCall reqA ∅].
Proof.
  destruct drain_stops_after_first_success as (w1 & Hrun & _ & _ & _ & _ & _ & _ & Hlater).
  vm_compute in Hrun. injection Hrun as <-.
  eexists. eexists. split; [vm_compute; reflexivity |].
  split; [vm_compute; reflexivity |].
  refine (proj1 (Hlater laterOn _ _)). vm_compute. reflexivity.
Defined.

(** C5, on the code: two requests are queued and the server answers the
    first with 404.  [onError] is called once and the item is removed for
    good, but the recursive [processQueue()] meets the guard and returns:
    the next item is not attempted, then or later. *)
Theorem drain_stops_after_client_error :
  ∃ w1,
    run firstRejected (twoQueued true) = Some w1
    ∧ fetches (trace w1) = [fetchCall reqA ∅]
    ∧ errorsReported (trace w1)
      = [EvOnError 2 (JsError "Client Error 404: Not Found") reqA]
    ∧ store w1 = Some [reqB]
    ∧ isSyncing w1 = true
    ∧ tasks w1 = []
    ∧ timers w1 = []
    ∧ ∀ acts w2,
        run acts w1 = Some w2 →
        fetches (trace w2) = [fetchCall reqA ∅]
        ∧ ∃ more, queueOf (store w2) = reqB :: more.
Proof.
  eexists. split; [vm_compute; reflexivity |].
  do 6 (split; [vm_compute; reflexivity |]).
  intros acts w2 Hrun.
  eapply Stalled_run in Hrun as (_ & Hf & _ & more & Hq);
    [| split; vm_compute; reflexivity].
  split; [exact Hf | exists more; exact Hq].
Qed.

Lemma drain_stops_after_client_error_witness :
  ∃ w1 w2,
    run firstRejected (twoQueued true) = Some w1
    ∧ run laterOn w1 = Some w2
    ∧ fetches (trace w2) = [fetchCall reqA ∅].
Proof.
  destruct drain_stops_after_client_error as (w1 & Hrun & _ & _ & _ & _ & _ & _ & Hlater).
  vm_compute in Hrun. injection Hrun as <-.
  eexists. eexists. split; [vm_compute; reflexivity |].
  split; [vm_compute; reflexivity |].
  refine (proj1 (Hlater laterOn _ _)). vm_compute. reflexivity.
Defined.

(** C2, on the code: a subscriber watches one request being enqueued and
    delivered.  It hears [false] when it subscribes, [true] when the pass
    starts and [true] again from the [finally] of the pass; the pass is over
    and the queue is empty, yet [isSyncing] is still set, and whatever
    happens next no subscriber hears [false] again. *)
Theorem isSyncing_left_set_after_delivery :
  ∃ w1,
    run watchedDelivery (initWorld None true) = Some w1
    ∧ heard 7 (trace w1) = [false; true; true]
    ∧ store w1 = Some []
    ∧ tasks w1 = []
    ∧ timers w1 = []
    ∧ isSyncing w1 = true
    ∧ ∀ acts w2,
        run acts w1 = Some w2 →
        isSyncing w2 = true
        ∧ releases (trace w2) = [EvListener 7 false].
Proof.
  eexists. split; [vm_compute; reflexivity |].
  do 5 (split; [vm_compute; reflexivity |]).
  intros acts w2 Hrun.
  eapply Stalled_run in Hrun as ([Hs _] & _ & Hr & _);
    [| split; vm_compute; reflexivity].
  split; [exact Hs | exact Hr].
Qed.

Lemma isSyncing_left_set_after_delivery_witness :
  ∃ w1 w2,
    run watchedDelivery (initWorld None true) = Some w1
    ∧ run laterOn w1 = Some w2
    ∧ isSyncing w2 = true.
Proof.
  destruct isSyncing_left_set_after_delivery as (w1 & Hrun & _ & _ & _ & _ & _ & Hlater).
  vm_compute in Hrun. injection Hrun as <-.
  eexists. eexists. split; [vm_compute; reflexivity |].
  split; [vm_compute; reflexivity |].
  refine (proj1 (Hlater laterOn _ _)). vm_compute. reflexivity.
Defined.

(** ** The two endings of a pass that release the guard *)

Lemma heard_calls_value (cb : nat) (b x : bool) (ls : list nat) :
  last (heard cb (map (λ c, EvListener c b) ls)) = Some x → x = b.
Proof.
  unfold heard. induction ls as [|c ls IH]; cbn; [discriminate |].
  destruct (decide (c = cb)); [| exact IH].
  rewrite last_cons. destruct (last _) as [y|]; [exact IH |].
  congruence.
Qed.

Lemma heard_calls (cb : nat) (b : bool) (ls : list nat) :
  cb ∈ ls →
  last (heard cb (map (λ c, EvListener c b) ls)) = Some b.
Proof.
  induction ls as [|c ls IH]; intros Hin.
  - apply elem_of_nil in Hin. contradiction.
  - destruct (decide (c = cb)) as [->|Hne].
    + unfold heard. cbn. destruct (decide (cb = cb)); [| contradiction].
      rewrite last_cons.
      destruct (last _) as [y|] eqn:Hlast; [| reflexivity].
      apply heard_calls_value in Hlast. congruence.
    + apply elem_of_cons in Hin as [->|Hin]; [contradiction |].
      unfold heard in *. cbn.
      destruct (decide (c = cb)); [contradiction | exact (IH Hin)].
Qed.

Lemma heard_notifyListeners (cb : nat) (w : World) :
  cb ∈ listeners w →
  last (heard cb (trace (notifyListeners w))) = Some (isSyncing w).
Proof.
  intros Hin. unfold notifyListeners, heard. cbn.
  rewrite omap_app, last_app.
  fold (heard cb (map (λ c, EvListener c (isSyncing w)) (listeners w))).
  rewrite (heard_calls cb _ _ Hin). reflexivity.
Qed.

(** A pass tells every subscriber [true] when it starts. *)
Lemma pass_start_heard (cb : nat) (w : World) :
  cb ∈ listeners w → isSyncing w = false → onLine w = true →
  isSyncing (processQueue w) = true
  ∧ last (heard cb (trace (processQueue w))) = Some true.
Proof.
  intros Hin Hs Hon. unfold processQueue. rewrite Hs, Hon. cbn.
  split; [reflexivity |].
  apply (heard_notifyListeners cb (setSyncing true w) Hin).
Qed.

(** A pass that finds the queue empty clears the flag and tells every
    subscriber [false]. *)
Lemma empty_pass_heard (cb : nat) (v : option (list RequestPayload))
    (w : World) :
  cb ∈ listeners w → queueOf v = [] →
  isSyncing (afterGet v w) = false
  ∧ last (heard cb (trace (afterGet v w))) = Some false.
Proof.
  intros Hin Hv. unfold afterGet, queueOf in *. rewrite Hv.
  split; [reflexivity |].
  apply (heard_notifyListeners cb (notifyListeners (setSyncing false w)) Hin).
Qed.

(** The continuation of [handleRetry] clears the flag and tells every
    subscriber [false]. *)
Lemma retry_release_heard (cb : nat) (req : RequestPayload) (w : World) :
  cb ∈ listeners w →
  isSyncing (handleRetry_resume req w) = false
  ∧ last (heard cb (trace (handleRetry_resume req w))) = Some false.
Proof.
  intros Hin. split; [reflexivity |].
  unfold handleRetry_resume, heard. cbn.
  rewrite !omap_app. cbn. rewrite app_nil_r, last_app.
  fold (heard cb (map (λ c, EvListener c false) (listeners w))).
  rewrite (heard_calls cb _ _ Hin). reflexivity.
Qed.

(** ** Every removal of an item stalls the engine *)

(** In a reachable world, a delivery that succeeded removes the head and
    leaves the guard set with nobody to clear it. *)
Lemma delivery_leaves_engine_stalled (w : World) (i : nat)
    (currentReq : RequestPayload) (response : Response) :
  Reachable w →
  tasks w !! i = Some (PQ_json currentReq response) →
  ∃ rest w',
    store w = Some (currentReq :: rest)
    ∧ step (Resume i Fulfilled) w = Some w'
    ∧ store w' = Some rest
    ∧ Stalled w'.
Proof.
  intros Hreach Hi.
  destruct (pending_pass w i _ Hreach Hi eq_refl)
    as (Hfree & Hs & rest & Hstore).
  exists rest. unfold step. rewrite Hi. cbn [resume].
  open_world w. subst sy st. unfold afterJson, update. cbn.
  eexists. split; [reflexivity |]. split; [reflexivity |].
  destruct os; cbn;
    (split; [reflexivity |]);
    (split; [reflexivity | cbn; auto using free_snoc]).
Qed.

(** In a reachable world, a 4xx response removes the head and leaves the
    guard set with nobody to clear it. *)
Lemma client_error_leaves_engine_stalled (w : World) (i : nat)
    (currentReq : RequestPayload) (response : Response) (s : N) :
  Reachable w →
  tasks w !! i = Some (PQ_fetch currentReq) →
  ok response = false → status response = Some s → 400 ≤ s < 500 →
  ∃ rest w',
    store w = Some (currentReq :: rest)
    ∧ step (Resume i (FulfilledResponse response)) w = Some w'
    ∧ store w' = Some rest
    ∧ Stalled w'.
Proof.
  intros Hreach Hi Hok Hstatus [Hlo Hhi].
  destruct (pending_pass w i _ Hreach Hi eq_refl)
    as (Hfree & Hs & rest & Hstore).
  exists rest. unfold step. rewrite Hi. cbn [resume].
  rewrite afterFetch_not_ok, Hstatus by exact Hok.
  apply N.leb_le in Hlo. apply N.ltb_lt in Hhi. rewrite Hlo, Hhi.
  cbn [andb]. unfold innerCatch. rewrite clientError_is_clientError.
  open_world w. subst sy st. unfold update, log. cbn.
  eexists. split; [reflexivity |]. split; [reflexivity |].
  destruct dbg, oe; cbn;
    (split; [reflexivity |]);
    (split; [reflexivity | cbn; auto using free_snoc]).
Qed.

(** * Further properties of the engine *)

(** ** Effects are licensed by the configuration and the subscriptions *)

Lemma emits_refl (w : World) : emits w w.
Proof.
  repeat split. exists []. rewrite app_nil_r. split; [reflexivity | constructor].
Qed.

Lemma licensed_ext (w w' : World) (e : Event) :
  config w' = config w → listeners w' = listeners w →
  licensed w' e → licensed w e.
Proof. unfold licensed. intros -> ->. auto. Qed.

Lemma emits_trans (w1 w2 w3 : World) :
  emits w1 w2 → emits w2 w3 → emits w1 w3.
Proof.
  intros (Hc & Hl & evs & Ht & Hf) (Hc' & Hl' & evs' & Ht' & Hf').
  split; [congruence |]. split; [congruence |].
  exists (evs ++ evs'). split; [rewrite Ht', Ht, app_assoc; reflexivity |].
  apply Forall_app. split; [exact Hf |].
  eapply Forall_impl; [exact Hf' |].
  intros e. apply licensed_ext; assumption.
Qed.

Lemma emits_emit (evs : list Event) (w : World) :
  Forall (licensed w) evs → emits w (emit evs w).
Proof. intros H. repeat split. exists evs. split; [reflexivity | exact H]. Qed.

Lemma emits_quiet (w w' : World) :
  config w' = config w → listeners w' = listeners w → trace w' = trace w →
  emits w w'.
Proof.
  intros Hc Hl Ht. repeat split; try assumption.
  exists []. rewrite app_nil_r. split; [exact Ht | constructor].
Qed.

Lemma emits_log (msg : string) (w : World) : emits w (log msg w).
Proof.
  unfold log. destruct (debug (config w)) eqn:Hd; [| apply emits_refl].
  apply emits_emit. repeat constructor. exact Hd.
Qed.

Lemma emits_notifyListeners (w : World) : emits w (notifyListeners w).
Proof.
  apply emits_emit. apply Forall_forall. intros e He.
  apply list_elem_of_fmap in He as (cb & -> & Hcb). exact Hcb.
Qed.

Lemma emits_setSyncing (b : bool) (w : World) : emits w (setSyncing b w).
Proof. apply emits_quiet; reflexivity. Qed.

Lemma emits_suspend (t : Task) (w : World) : emits w (suspend t w).
Proof. apply emits_quiet; reflexivity. Qed.

Lemma emits_update updater (w w' : World) :
  update updater w = Some w' → emits w w'.
Proof.
  unfold update. destruct (updater (store w)); [| discriminate].
  intros [= <-]. apply emits_quiet; reflexivity.
Qed.

Lemma emits_processQueue (w : World) : emits w (processQueue w).
Proof.
  unfold processQueue.
  destruct (isSyncing w || negb (onLine w)); [apply emits_refl |].
  eapply emits_trans; [apply (emits_setSyncing true) |].
  eapply emits_trans; [apply emits_notifyListeners |].
  apply emits_suspend.
Qed.

Lemma emits_outerCatch (w : World) : emits w (outerCatch w).
Proof.
  unfold outerCatch.
  eapply emits_trans; [apply (emits_setSyncing false) |].
  apply emits_notifyListeners.
Qed.

Lemma emits_handleRetry (req : RequestPayload) (w : World) :
  emits w (handleRetry req w).
Proof.
  unfold handleRetry.
  eapply emits_trans; [apply emits_log |].
  destruct (update _ _) as [w'|] eqn:Hu; [| apply emits_refl].
  eapply emits_trans; [apply (emits_update _ _ _ Hu) |].
  apply emits_suspend.
Qed.

Lemma emits_innerCatch (error : Thrown) (currentReq : RequestPayload)
    (w : World) :
  emits w (innerCatch error currentReq w).
Proof.
  unfold innerCatch. destruct error as [message|]; [| apply emits_outerCatch].
  destruct (includes _ message).
  - set (w1 := log _ w).
    assert (H1 : emits w w1) by apply emits_log.
    set (w2 := match onError (config w1) with
               | Some f => emit [EvOnError f (JsError message) currentReq] w1
               | None => w1
               end).
    assert (H2 : emits w1 w2).
    { unfold w2. destruct (onError (config w1)) as [f|] eqn:Hf;
        [| apply emits_refl].
      apply emits_emit. repeat constructor. exact Hf. }
    eapply emits_trans; [exact H1 |]. eapply emits_trans; [exact H2 |].
    destruct (update sliceUpdater w2) as [w3|] eqn:Hu.
    + eapply emits_trans; [apply (emits_update _ _ _ Hu) |].
      apply emits_suspend.
    + apply emits_outerCatch.
  - eapply emits_trans; [apply emits_handleRetry |].
    apply emits_notifyListeners.
Qed.

Lemma emits_callFetch (currentReq : RequestPayload)
    (dynamicHeaders : Headers) (w : World) :
  emits w (callFetch currentReq dynamicHeaders w).
Proof.
  unfold callFetch.
  eapply emits_trans;
    [apply (emits_emit [fetchCall currentReq dynamicHeaders]);
     repeat constructor |].
  apply emits_suspend.
Qed.

Lemma emits_afterGet (v : option (list RequestPayload)) (w : World) :
  emits w (afterGet v w).
Proof.
  unfold afterGet. destruct (default [] v) as [|currentReq q].
  - eapply emits_trans; [apply (emits_setSyncing false) |].
    eapply emits_trans; apply emits_notifyListeners.
  - set (w1 := log _ w).
    eapply emits_trans; [apply emits_log |]. fold w1.
    destruct (prepareHeaders (config w1)) as [f|] eqn:Hf.
    + eapply emits_trans;
        [apply (emits_emit [EvPrepareHeaders f]); repeat constructor;
         exact Hf |].
      apply emits_suspend.
    + apply emits_callFetch.
Qed.

Lemma emits_afterFetch (currentReq : RequestPayload) (response : Response)
    (w : World) :
  emits w (afterFetch currentReq response w).
Proof.
  unfold afterFetch.
  destruct (negb (ok response));
    [destruct (match status response with Some _ => _ | None => _ end) |];
    try apply emits_innerCatch.
  apply emits_suspend.
Qed.

Lemma emits_afterJson (currentReq : RequestPayload) (response : Response)
    (w : World) :
  emits w (afterJson currentReq response w).
Proof.
  unfold afterJson.
  set (w1 := match onSuccess (config w) with
             | Some f => emit [EvOnSuccess f _ currentReq] w
             | None => w
             end).
  assert (H1 : emits w w1).
  { unfold w1. destruct (onSuccess (config w)) as [f|] eqn:Hf;
      [| apply emits_refl].
    apply emits_emit. repeat constructor. exact Hf. }
  eapply emits_trans; [exact H1 |].
  destruct (update sliceUpdater w1) as [w2|] eqn:Hu.
  - eapply emits_trans; [apply (emits_update _ _ _ Hu) |].
    apply emits_suspend.
  - apply emits_innerCatch.
Qed.

Lemma emits_afterPop (w : World) : emits w (afterPop w).
Proof.
  unfold afterPop.
  eapply emits_trans; [apply emits_processQueue | apply emits_notifyListeners].
Qed.

Lemma emits_handleRetry_resume (req : RequestPayload) (w : World) :
  emits w (handleRetry_resume req w).
Proof.
  unfold handleRetry_resume.
  eapply emits_trans; [apply (emits_setSyncing false) |].
  eapply emits_trans; [apply emits_notifyListeners |].
  eapply emits_trans;
    [apply (emits_emit [EvSetTimeout (backoffDelay req)]);
     repeat constructor |].
  apply emits_quiet; reflexivity.
Qed.

Lemma emits_addRequest (req : RequestInit) (uuid : string) (now : N)
    (w : World) :
  emits w (addRequest req uuid now w).
Proof. apply emits_quiet; reflexivity. Qed.

Lemma emits_addRequest_resume (payload : RequestPayload) (w : World) :
  emits w (addRequest_resume payload w).
Proof.
  unfold addRequest_resume. set (w1 := log _ w).
  eapply emits_trans; [apply emits_log |]. fold w1.
  destruct (onLine w1); [apply emits_processQueue | apply emits_refl].
Qed.

Lemma emits_timerCallback (w : World) : emits w (timerCallback w).
Proof.
  unfold timerCallback.
  destruct (onLine w); [apply emits_processQueue | apply emits_refl].
Qed.

Lemma emits_resume (t : Task) (o : Settled) (w w' : World) :
  resume t o w = Some w' → emits w w'.
Proof.
  destruct t, o; cbn; try discriminate; intros [= <-];
    auto using emits_afterGet, emits_callFetch, emits_innerCatch,
      emits_afterFetch, emits_afterJson, emits_afterPop,
      emits_handleRetry_resume, emits_addRequest_resume.
Qed.

(** The effects of one step, read against the world it starts from. *)
Lemma step_effects :
  ∀ (a : Action) (w w' : World),
    step a w = Some w' →
    ∃ evs,
      trace w' = trace w ++ evs
      ∧ Forall (λ e,
          match e with
          | EvListener cb _ => cb ∈ listeners w ∨ a = Subscribe cb
          | EvLog _ => debug (config w) = true
          | EvPrepareHeaders f => prepareHeaders (config w) = Some f
          | EvOnSuccess f _ _ => onSuccess (config w) = Some f
          | EvOnError f _ _ => onError (config w) = Some f
          | EvFetch _ _ _ _ | EvSetTimeout _ => True
          end) evs.
Proof.
  intros a w w' Hstep.
  assert (Hweak : ∀ w0, emits w0 w' →
            config w0 = config w → listeners w0 = listeners w →
            trace w0 = trace w →
            ∃ evs, trace w' = trace w ++ evs
              ∧ Forall (λ e,
                  match e with
                  | EvListener cb _ => cb ∈ listeners w ∨ a = Subscribe cb
                  | EvLog _ => debug (config w) = true
                  | EvPrepareHeaders f => prepareHeaders (config w) = Some f
                  | EvOnSuccess f _ _ => onSuccess (config w) = Some f
                  | EvOnError f _ _ => onError (config w) = Some f
                  | EvFetch _ _ _ _ | EvSetTimeout _ => True
                  end) evs).
  { intros w0 (_ & _ & evs & Ht & Hf) Hc Hl Htr.
    exists evs. split; [congruence |].
    eapply Forall_impl; [exact Hf |].
    intros [cb b|msg|f|u m hs bd|f d r|f err r|d]; unfold licensed;
      rewrite ?Hc, ?Hl; auto. }
  destruct a as [req uuid now|c|cb|cb|b| |i o|i]; cbn in Hstep.
  - injection Hstep as <-.
    apply (Hweak w); try reflexivity. apply emits_addRequest.
  - injection Hstep as <-. exists []. rewrite app_nil_r.
    split; [reflexivity | constructor].
  - injection Hstep as <-. unfold subscribe.
    exists [EvListener cb (isSyncing w)].
    destruct (decide (cb ∈ listeners w));
      (split; [reflexivity
              | constructor; [right; reflexivity | constructor]]).
  - injection Hstep as <-. exists []. rewrite app_nil_r.
    split; [reflexivity | constructor].
  - injection Hstep as <-. exists []. rewrite app_nil_r.
    split; [reflexivity | constructor].
  - injection Hstep as <-.
    apply (Hweak w); try reflexivity. apply emits_processQueue.
  - destruct (tasks w !! i) as [t|]; [| discriminate].
    apply (Hweak (setTasks (delete i (tasks w)) w)); try reflexivity.
    apply (emits_resume t o), Hstep.
  - destruct (timers w !! i) as [d|]; [| discriminate].
    injection Hstep as <-.
    apply (Hweak (setTimers (delete i (timers w)) w)); try reflexivity.
    apply emits_timerCallback.
Qed.

(** X1. Every effect of a step is licensed by the world it starts from: a
    callback that is called is the one configured at that moment, a log line
    appears only in debug mode, and a status call goes to a subscriber or to
    the callback that is being subscribed. *)
Theorem effects_follow_current_config :
  ∀ (a : Action) (w w' : World),
    step a w = Some w' →
    ∃ evs,
      trace w' = trace w ++ evs
      ∧ Forall (λ e,
          match e with
          | EvListener cb _ => cb ∈ listeners w ∨ a = Subscribe cb
          | EvLog _ => debug (config w) = true
          | EvPrepareHeaders f => prepareHeaders (config w) = Some f
          | EvOnSuccess f _ _ => onSuccess (config w) = Some f
          | EvOnError f _ _ => onError (config w) = Some f
          | EvFetch _ _ _ _ | EvSetTimeout _ => True
          end) evs.
Proof. exact step_effects. Qed.

Lemma effects_follow_current_config_witness :
  ∃ evs,
    trace (afterJson reqA response200
             (setConfig reportingConfig (twoQueued true)))
      = trace (setTasks [PQ_json reqA response200]
                 (setConfig reportingConfig (twoQueued true))) ++ evs
    ∧ Forall (λ e,
        match e with
        | EvOnSuccess f _ _ => f = 1%nat
        | _ => True
        end) evs.
Proof.
  destruct (effects_follow_current_config (Resume 0 Fulfilled)
              (setTasks [PQ_json reqA response200]
                 (setConfig reportingConfig (twoQueued true)))
              (afterJson reqA response200
                 (setConfig reportingConfig (twoQueued true))) eq_refl)
    as (evs & Ht & Hf).
  exists evs. split; [exact Ht |].
  eapply Forall_impl; [exact Hf |].
  intros [cb b|msg|f|u m hs bd|f d r|f err r|d]; cbn; congruence || auto.
Defined.

(** ** Subscribers *)

Lemma heard_app (cb : nat) (tr evs : list Event) :
  heard cb (tr ++ evs) = heard cb tr ++ heard cb evs.
Proof. apply omap_app. Qed.

Lemma heard_none (cb : nat) (evs : list Event) :
  Forall (λ e, match e with EvListener c _ => c ≠ cb | _ => True end) evs →
  heard cb evs = [].
Proof.
  induction 1 as [|e evs He _ IH]; [reflexivity |].
  unfold heard in *. cbn. rewrite IH.
  destruct e; try reflexivity.
  destruct (decide (cb0 = cb)); [contradiction | reflexivity].
Qed.

(** A callback that is not subscribed hears nothing from a step, unless the
    step subscribes it; and it stays unsubscribed. *)
Lemma step_unsubscribed (cb : nat) (a : Action) (w w' : World) :
  (cb ∉ listeners w) → a ≠ Subscribe cb → step a w = Some w' →
  (cb ∉ listeners w') ∧ heard cb (trace w') = heard cb (trace w).
Proof.
  intros Hout Ha Hstep. split.
  - destruct a as [req uuid now|c|c|c|b| |i o|i]; cbn in Hstep.
    + injection Hstep as <-. exact Hout.
    + injection Hstep as <-. exact Hout.
    + injection Hstep as <-. unfold subscribe.
      destruct (decide (c ∈ listeners w)); cbn; [exact Hout |].
      rewrite elem_of_app, list_elem_of_singleton.
      intros [?| ->]; [contradiction | apply Ha; reflexivity].
    + injection Hstep as <-. cbn.
      intros Hin%list_elem_of_filter. destruct Hin as [_ Hin]. contradiction.
    + injection Hstep as <-. exact Hout.
    + injection Hstep as <-.
      destruct (emits_processQueue w) as (_ & -> & _). exact Hout.
    + destruct (tasks w !! i) as [t|]; [| discriminate].
      destruct (emits_resume t o _ _ Hstep) as (_ & -> & _). exact Hout.
    + destruct (timers w !! i) as [d|]; [| discriminate].
      injection Hstep as <-.
      destruct (emits_timerCallback (setTimers (delete i (timers w)) w))
        as (_ & -> & _). exact Hout.
  - destruct (step_effects a w w' Hstep) as (evs & -> & Hf).
    rewrite heard_app, (heard_none cb evs), app_nil_r; [reflexivity |].
    eapply Forall_impl; [exact Hf |].
    intros [c b|msg|f|u m hs bd|f d r|f err r|d]; auto.
    intros [Hin | ->] ->; [contradiction | apply Ha; reflexivity].
Qed.

(** X2. Once a callback has been unsubscribed it is not called again,
    whatever the engine does, until it is subscribed anew. *)
Theorem unsubscribed_callback_hears_nothing :
  ∀ (cb : nat) (acts : list Action) (w w' : World),
    Forall (λ a, a ≠ Subscribe cb) acts →
    run acts (unsubscribe cb w) = Some w' →
    heard cb (trace w') = heard cb (trace w)
    ∧ (cb ∉ listeners w').
Proof.
  intros cb acts w w' Hacts Hrun.
  assert (Hgen : ∀ acts w0 w1,
            Forall (λ a, a ≠ Subscribe cb) acts →
            (cb ∉ listeners w0) → run acts w0 = Some w1 →
            heard cb (trace w1) = heard cb (trace w0)
            ∧ (cb ∉ listeners w1)).
  { clear. induction acts as [|a acts IH]; intros w0 w1 Hacts Hout Hrun;
      cbn in Hrun.
    - injection Hrun as <-. auto.
    - destruct (step a w0) as [w2|] eqn:Hstep; [| discriminate].
      apply Forall_cons in Hacts as [Ha Hacts].
      destruct (step_unsubscribed cb a w0 w2 Hout Ha Hstep) as [Hout2 Hh].
      destruct (IH w2 w1 Hacts Hout2 Hrun) as [Hh1 Hout1].
      split; [congruence | exact Hout1]. }
  apply (Hgen acts (unsubscribe cb w) w' Hacts); [| exact Hrun].
  cbn. intros Hin%list_elem_of_filter. destruct Hin as [Hne _].
  apply Hne. reflexivity.
Qed.

Lemma unsubscribed_callback_hears_nothing_witness :
  ∃ w',
    run firstDelivered (unsubscribe 7 (subscribe 7 (twoQueued false)))
      = Some w'
    ∧ heard 7 (trace w') = [false].
Proof.
  eexists. split; [vm_compute; reflexivity |].
  refine (proj1 (unsubscribed_callback_hears_nothing 7 firstDelivered
                   (subscribe 7 (twoQueued false)) _ _ _)).
  - repeat constructor; discriminate.
  - vm_compute. reflexivity.
Defined.

Lemma step_listeners_NoDup (a : Action) (w w' : World) :
  NoDup (listeners w) → step a w = Some w' → NoDup (listeners w').
Proof.
  intros Hnd Hstep.
  destruct a as [req uuid now|c|c|c|b| |i o|i]; cbn in Hstep.
  - injection Hstep as <-. exact Hnd.
  - injection Hstep as <-. exact Hnd.
  - injection Hstep as <-. unfold subscribe.
    destruct (decide (c ∈ listeners w)) as [Hin|Hout]; cbn; [exact Hnd |].
    apply NoDup_app. split; [exact Hnd |]. split; [| apply NoDup_singleton].
    intros x Hx ->%list_elem_of_singleton. contradiction.
  - injection Hstep as <-. cbn. apply NoDup_filter, Hnd.
  - injection Hstep as <-. exact Hnd.
  - injection Hstep as <-.
    destruct (emits_processQueue w) as (_ & -> & _). exact Hnd.
  - destruct (tasks w !! i) as [t|]; [| discriminate].
    destruct (emits_resume t o _ _ Hstep) as (_ & -> & _). exact Hnd.
  - destruct (timers w !! i) as [d|]; [| discriminate].
    injection Hstep as <-.
    destruct (emits_timerCallback (setTimers (delete i (timers w)) w))
      as (_ & -> & _). exact Hnd.
Qed.

Lemma Reachable_listeners_NoDup (w : World) :
  Reachable w → NoDup (listeners w).
Proof.
  intros (persisted & online & acts & Hrun).
  assert (Hgen : ∀ acts w0 w1,
            NoDup (listeners w0) → run acts w0 = Some w1 →
            NoDup (listeners w1)).
  { clear. induction acts as [|a acts IH]; intros w0 w1 Hnd Hrun;
      cbn in Hrun.
    - injection Hrun as <-. exact Hnd.
    - destruct (step a w0) as [w2|] eqn:Hstep; [| discriminate].
      apply (IH w2 w1); [apply (step_listeners_NoDup a w0), Hstep |];
        assumption. }
  apply (Hgen acts (initWorld persisted online) w); [constructor | exact Hrun].
Qed.

Lemma heard_calls_once (cb : nat) (b : bool) (ls : list nat) :
  NoDup ls → cb ∈ ls → heard cb (map (λ c, EvListener c b) ls) = [b].
Proof.
  induction 1 as [|c ls Hc Hnd IH]; intros Hin.
  - apply elem_of_nil in Hin. contradiction.
  - unfold heard in *. cbn. destruct (decide (c = cb)) as [->|Hne].
    + f_equal. apply heard_none, Forall_forall.
      intros e (c' & -> & Hc')%list_elem_of_fmap. congruence.
    + apply elem_of_cons in Hin as [->|Hin]; [contradiction | exact (IH Hin)].
Qed.

(** X3. The subscribers form a set: however often a callback was
    subscribed, a notification calls it exactly once, with the current
    [isSyncing]. *)
Theorem each_subscriber_is_called_once :
  ∀ (w : World) (cb : nat),
    Reachable w →
    cb ∈ listeners w →
    NoDup (listeners w)
    ∧ heard cb (trace (notifyListeners w))
      = heard cb (trace w) ++ [isSyncing w].
Proof.
  intros w cb Hreach Hin.
  pose proof (Reachable_listeners_NoDup w Hreach) as Hnd.
  split; [exact Hnd |].
  change (trace (notifyListeners w))
    with (trace w ++ map (λ c, EvListener c (isSyncing w)) (listeners w)).
  rewrite heard_app, (heard_calls_once cb _ _ Hnd Hin). reflexivity.
Qed.

Lemma each_subscriber_is_called_once_witness :
  heard 7 (trace (notifyListeners
                    (subscribe 7 (subscribe 7 (initWorld None true)))))
    = [false; false; false].
Proof.
  refine (proj2 (each_subscriber_is_called_once
                   (subscribe 7 (subscribe 7 (initWorld None true))) 7 _ _)).
  - exists None, true, [Subscribe 7%nat; Subscribe 7%nat]. reflexivity.
  - vm_compute. apply list_elem_of_here.
Defined.

(** ** One pass at a time *)

(** X4. In every reachable world at most one activation works under the
    guard (a drain pass, or the [handleRetry] it left behind), and none does
    while [isSyncing] is [false]. *)
Theorem at_most_one_pass_in_flight :
  ∀ (w : World),
    Reachable w →
    (length (List.filter holdsGuard (tasks w)) ≤ 1)%nat
    ∧ (isSyncing w = false → List.filter holdsGuard (tasks w) = []).
Proof.
  intros w Hreach. pose proof (Reachable_Inv w Hreach) as HI.
  split; [| apply Inv_idle, HI].
  unfold Inv in HI.
  destruct (List.filter holdsGuard (tasks w)) as [|t [|t' l]];
    cbn; [lia | lia | contradiction].
Qed.

Lemma at_most_one_pass_in_flight_witness :
  (length (List.filter holdsGuard (tasks fetchInFlight)) ≤ 1)%nat.
Proof.
  refine (proj1 (at_most_one_pass_in_flight fetchInFlight _)).
  exists (Some [reqA; reqB]), true, [OnlineEvent; Resume 0 Fulfilled].
  vm_compute. reflexivity.
Defined.

(** ** The persisted queue *)

Lemma queueStep_same (q : list RequestPayload) : queueStep q q.
Proof. left. reflexivity. Qed.

Lemma innerCatch_queue (error : Thrown) (currentReq : RequestPayload)
    (w : World) :
  queueStep (queueOf (store w))
            (queueOf (store (innerCatch error currentReq w))).
Proof.
  open_world w.
  unfold innerCatch, outerCatch, handleRetry, update, log.
  destruct error as [message|]; [| apply queueStep_same].
  destruct (includes _ message).
  - destruct dbg, oe, st; cbn; solve [apply queueStep_same
                                     | right; left; reflexivity].
  - destruct dbg, st; cbn;
      solve [apply queueStep_same
            | right; right; exists currentReq; reflexivity].
Qed.

Lemma resume_queue (t : Task) (o : Settled) (w w' : World) :
  resume t o w = Some w' →
  queueStep (queueOf (store w)) (queueOf (store w')).
Proof.
  destruct t, o; cbn; try discriminate; intros [= <-].
  - unfold afterGet. destruct (default [] v); [apply queueStep_same |].
    open_world w. unfold log, callFetch.
    destruct dbg, ph; apply queueStep_same.
  - apply queueStep_same.
  - apply innerCatch_queue.
  - unfold afterFetch.
    destruct (negb (ok response));
      [destruct (match status response with Some _ => _ | None => _ end) |];
      try apply innerCatch_queue.
    apply queueStep_same.
  - apply innerCatch_queue.
  - open_world w. unfold afterJson, update. destruct os, st; cbn -[innerCatch].
    1, 3: right; left; reflexivity.
    all: match goal with
         | |- queueStep _ (queueOf (store (innerCatch ?e ?r ?W))) =>
             apply (innerCatch_queue e r W)
         end.
  - unfold afterPop. cbn.
    destruct (processQueue_quiet w) as (-> & _). apply queueStep_same.
  - unfold afterPop. cbn.
    destruct (processQueue_quiet w) as (-> & _). apply queueStep_same.
  - apply queueStep_same.
  - unfold addRequest_resume. set (w1 := log _ w).
    assert (Hs : store w1 = store w) by apply log_quiet.
    destruct (onLine w1).
    + destruct (processQueue_quiet w1) as (-> & _). rewrite Hs.
      apply queueStep_same.
    + rewrite Hs. apply queueStep_same.
Qed.

(** What a step does to the persisted queue. *)
Lemma step_queue (a : Action) (w w' : World) :
  step a w = Some w' →
  (∃ req uuid now,
     a = AddRequest req uuid now
     ∧ queueOf (store w') = queueOf (store w) ++ [newPayload req uuid now])
  ∨ queueStep (queueOf (store w)) (queueOf (store w')).
Proof.
  intros Hstep.
  destruct a as [req uuid now|c|c|c|b| |i o|i]; cbn in Hstep.
  - injection Hstep as <-. left. exists req, uuid, now. split; reflexivity.
  - injection Hstep as <-. right. apply queueStep_same.
  - injection Hstep as <-. right. unfold subscribe.
    destruct (decide (c ∈ listeners w)); apply queueStep_same.
  - injection Hstep as <-. right. apply queueStep_same.
  - injection Hstep as <-. right. apply queueStep_same.
  - injection Hstep as <-. right.
    destruct (processQueue_quiet w) as (-> & _). apply queueStep_same.
  - destruct (tasks w !! i) as [t|]; [| discriminate].
    right. apply (resume_queue t o _ _ Hstep).
  - destruct (timers w !! i) as [d|]; [| discriminate].
    injection Hstep as <-. right. unfold timerCallback.
    destruct (onLine _); [| apply queueStep_same].
    destruct (processQueue_quiet (setTimers (delete i (timers w)) w))
      as (-> & _).
    apply queueStep_same.
Qed.

(** X5. A step changes the persisted queue in one of four ways only: not at
    all, by appending a fresh payload at the tail (an [addRequest]), by
    removing the head, or by incrementing the head's [retryCount].  Items
    are never reordered, and no item behind the head is changed or
    removed. *)
Theorem queue_changes_only_at_its_ends :
  ∀ (a : Action) (w w' : World),
    step a w = Some w' →
    queueOf (store w') = queueOf (store w)
    ∨ (∃ req uuid now,
         a = AddRequest req uuid now
         ∧ queueOf (store w') = queueOf (store w) ++ [newPayload req uuid now])
    ∨ queueOf (store w') = drop 1 (queueOf (store w))
    ∨ ∃ req, queueOf (store w') = incrementHead req (queueOf (store w)).
Proof.
  intros a w w' Hstep.
  destruct (step_queue a w w' Hstep) as [Happ | [Hq | [Hq | Hq]]]; auto.
Qed.

Lemma queue_changes_only_at_its_ends_witness :
  queueOf (store (afterJson reqA response200 (twoQueued true)))
    = drop 1 (queueOf (store (setTasks [PQ_json reqA response200]
                                (twoQueued true)))).
Proof.
  destruct (queue_changes_only_at_its_ends (Resume 0 Fulfilled)
              (setTasks [PQ_json reqA response200] (twoQueued true))
              (afterJson reqA response200 (twoQueued true)) eq_refl)
    as [H | [(req & uuid & now & H & _) | [H | (req & H)]]].
  - vm_compute in H. discriminate H.
  - discriminate H.
  - exact H.
  - vm_compute. reflexivity.
Defined.

(** X15. The [id]s in the persisted queue stay pairwise distinct, provided
    each [addRequest] draws an [id] that is not in the queue: no step ever
    copies an item or changes an [id], so the identity check of
    [handleRetry] always has one item at most to match. *)
Theorem queued_ids_stay_distinct :
  ∀ (a : Action) (w w' : World),
    NoDup (map id (queueOf (store w))) →
    (∀ req uuid now,
       a = AddRequest req uuid now → uuid ∉ map id (queueOf (store w))) →
    step a w = Some w' →
    NoDup (map id (queueOf (store w'))).
Proof.
  intros a w w' Hnd Hfresh Hstep.
  destruct (step_queue a w w' Hstep)
    as [(req & uuid & now & -> & ->) | [-> | [-> | (req & ->)]]].
  - rewrite map_app. cbn. apply NoDup_app. split; [exact Hnd |].
    split; [| apply NoDup_singleton].
    intros x Hx ->%list_elem_of_singleton.
    exact (Hfresh req uuid now eq_refl Hx).
  - exact Hnd.
  - destruct (queueOf (store w)) as [|x q]; [exact Hnd |].
    cbn in *. apply NoDup_cons in Hnd as [_ Hnd]. exact Hnd.
  - rewrite incrementHead_ids. exact Hnd.
Qed.

Lemma queued_ids_stay_distinct_witness :
  NoDup (map id (queueOf (store (addRequest initB "b" 2
                                   (initWorld (Some [reqA]) false))))).
Proof.
  apply (queued_ids_stay_distinct (AddRequest initB "b" 2)
           (initWorld (Some [reqA]) false)).
  - cbn. apply NoDup_singleton.
  - intros req uuid now [= _ <- _]. cbn.
    intros Hin%list_elem_of_singleton. discriminate Hin.
  - reflexivity.
Defined.

(** ** Outcomes of a delivery attempt *)

(** X6. A response with [ok = true] ends the attempt in success whatever
    its status field says: [onSuccess], when configured, is called once with
    the parsed body (or [{}] when the body cannot be parsed) and the request
    that was sent, and exactly that request is removed from the head of the
    persisted queue; nothing is reported as an error and no timer is
    armed. *)
Theorem ok_response_reports_and_removes_sent_item :
  ∀ (w : World) (i : nat) (currentReq : RequestPayload)
    (response : Response),
    Reachable w →
    tasks w !! i = Some (PQ_fetch currentReq) →
    ok response = true →
    ∃ rest w' w'',
      store w = Some (currentReq :: rest)
      ∧ step (Resume i (FulfilledResponse response)) w = Some w'
      ∧ step (Resume (length (delete i (tasks w))) Fulfilled) w' = Some w''
      ∧ store w'' = Some rest
      ∧ successesReported (trace w'')
        = successesReported (trace w)
            ++ match onSuccess (config w) with
               | Some f =>
                   [EvOnSuccess f (default "{}" (json response)) currentReq]
               | None => []
               end
      ∧ errorsReported (trace w'') = errorsReported (trace w)
      ∧ fetches (trace w'') = fetches (trace w)
      ∧ timers w'' = timers w.
Proof.
  intros w i currentReq response Hreach Hi Hok.
  destruct (pending_pass w i _ Hreach Hi eq_refl) as (_ & _ & rest & Hstore).
  exists rest. unfold step at 1. rewrite Hi. cbn [resume].
  unfold afterFetch. rewrite Hok. cbn [negb].
  clear Hreach. open_world w. subst st.
  eexists. eexists. split; [reflexivity |]. split; [reflexivity |].
  unfold step. cbn. rewrite list_lookup_middle by reflexivity.
  rewrite delete_middle, app_nil_r. cbn.
  unfold afterJson, update. cbn.
  split; [reflexivity |].
  destruct os; cbn; read_trace; repeat split; reflexivity.
Qed.

Lemma ok_response_reports_and_removes_sent_item_witness :
  ∃ w' w'',
    step (Resume 0 (FulfilledResponse response200)) fetchInFlight = Some w'
    ∧ step (Resume 0 Fulfilled) w' = Some w''
    ∧ store w'' = Some [reqB].
Proof.
  destruct (ok_response_reports_and_removes_sent_item fetchInFlight 0 reqA
              response200)
    as (rest & w' & w'' & H0 & H1 & H2 & H3 & _).
  - exists (Some [reqA; reqB]), true, [OnlineEvent; Resume 0 Fulfilled].
    vm_compute. reflexivity.
  - reflexivity.
  - reflexivity.
  - injection H0 as <-. exists w', w''.
    split; [exact H1 |]. split; [exact H2 | exact H3].
Defined.

(** X7. A response with [ok = false] and a status in 400-499 is final for
    the request: [onError], when configured, is called once with the error
    [Client Error <status>: <statusText>] and the request that was sent,
    exactly that request is removed from the head of the queue, its count
    is not incremented and no timer is armed. *)
Theorem client_error_reports_and_removes_sent_item :
  ∀ (w : World) (i : nat) (currentReq : RequestPayload)
    (response : Response) (s : N),
    Reachable w →
    tasks w !! i = Some (PQ_fetch currentReq) →
    ok response = false →
    status response = Some s →
    400 ≤ s < 500 →
    ∃ rest w',
      store w = Some (currentReq :: rest)
      ∧ step (Resume i (FulfilledResponse response)) w = Some w'
      ∧ store w' = Some rest
      ∧ errorsReported (trace w')
        = errorsReported (trace w)
            ++ match onError (config w) with
               | Some f =>
                   [EvOnError f
                      (JsError ("Client Error " +:+ showNumber s +:+ ": "
                                +:+ statusText response))
                      currentReq]
               | None => []
               end
      ∧ successesReported (trace w') = successesReported (trace w)
      ∧ fetches (trace w') = fetches (trace w)
      ∧ timers w' = timers w
      ∧ tasks w' = delete i (tasks w) ++ [PQ_drop currentReq].
Proof.
  intros w i currentReq response s Hreach Hi Hok Hstatus [Hlo Hhi].
  destruct (pending_pass w i _ Hreach Hi eq_refl) as (_ & _ & rest & Hstore).
  exists rest. unfold step. rewrite Hi. cbn [resume].
  rewrite afterFetch_not_ok, Hstatus by exact Hok.
  apply N.leb_le in Hlo. apply N.ltb_lt in Hhi. rewrite Hlo, Hhi.
  cbn [andb showStatus]. unfold innerCatch.
  rewrite (clientError_is_clientError (Some s)). cbn [showStatus].
  clear Hreach. open_world w. subst st. unfold update, log. cbn.
  eexists. split; [reflexivity |]. split; [reflexivity |].
  destruct dbg, oe; cbn; read_trace; repeat split; reflexivity.
Qed.

Lemma client_error_reports_and_removes_sent_item_witness :
  ∃ w',
    step (Resume 0 (FulfilledResponse response404)) fetchInFlight = Some w'
    ∧ store w' = Some [reqB]
    ∧ timers w' = [].
Proof.
  destruct (client_error_reports_and_removes_sent_item fetchInFlight 0 reqA
              response404 404)
    as (rest & w' & H0 & H1 & H2 & _ & _ & _ & H3 & _).
  - exists (Some [reqA; reqB]), true, [OnlineEvent; Resume 0 Fulfilled].
    vm_compute. reflexivity.
  - reflexivity.
  - reflexivity.
  - reflexivity.
  - split; [discriminate | reflexivity].
  - injection H0 as <-. exists w'.
    split; [exact H1 |]. split; [exact H2 | exact H3].
Defined.

(** X8. When [fetch] or [prepareHeaders] rejects with something that has no
    string [message] ([undefined], [null], a primitive), the pass gives up
    without deciding: the queue keeps its value, the guard is released, the
    subscribers are told [false], and neither a retry timer nor an
    [onError] report follows; the item waits for the next trigger. *)
Theorem rejection_without_message_releases_guard :
  ∀ (w : World) (i : nat) (t : Task) (currentReq : RequestPayload),
    Reachable w →
    tasks w !! i = Some t →
    t = PQ_fetch currentReq ∨ t = PQ_headers currentReq →
    ∃ w',
      step (Resume i (Rejected JsOther)) w = Some w'
      ∧ store w' = store w
      ∧ isSyncing w' = false
      ∧ tasks w' = delete i (tasks w)
      ∧ timers w' = timers w
      ∧ errorsReported (trace w') = errorsReported (trace w)
      ∧ fetches (trace w') = fetches (trace w)
      ∧ trace w'
        = trace w ++ map (λ cb, EvListener cb false) (listeners w).
Proof.
  intros w i t currentReq _ Hi Ht.
  unfold step. rewrite Hi.
  exists (outerCatch (setTasks (delete i (tasks w)) w)).
  split; [destruct Ht as [-> | ->]; reflexivity |].
  cbn. read_trace. repeat split; reflexivity.
Qed.

Lemma rejection_without_message_releases_guard_witness :
  ∃ w',
    step (Resume 0 (Rejected JsOther)) fetchInFlight = Some w'
    ∧ store w' = Some [reqA; reqB]
    ∧ isSyncing w' = false
    ∧ timers w' = [].
Proof.
  destruct (rejection_without_message_releases_guard fetchInFlight 0
              (PQ_fetch reqA) reqA)
    as (w' & H1 & H2 & H3 & _ & H4 & _).
  - exists (Some [reqA; reqB]), true, [OnlineEvent; Resume 0 Fulfilled].
    vm_compute. reflexivity.
  - reflexivity.
  - left. reflexivity.
  - exists w'. split; [exact H1 |]. split; [exact H2 |].
    split; [exact H3 | exact H4].
Defined.

(** X9. A [fetch] that rejects (no connection, DNS failure, abort) with an
    error whose message does not contain "Client Error" is a retry-class
    outcome: the item stays at the head with its count incremented,
    [onError] is not called, and once [handleRetry] has written the count
    the guard is released and the timer armed with the backoff delay. *)
Theorem failed_fetch_is_retried :
  ∀ (w : World) (i : nat) (currentReq : RequestPayload) (message : string),
    Reachable w →
    tasks w !! i = Some (PQ_fetch currentReq) →
    includes "Client Error" message = false →
    ∃ rest w' w'',
      store w = Some (currentReq :: rest)
      ∧ step (Resume i (Rejected (JsError message))) w = Some w'
      ∧ step (Resume (length (delete i (tasks w))) Fulfilled) w' = Some w''
      ∧ store w''
        = Some ({| id := id currentReq; url := url currentReq;
                   method := method currentReq; body := body currentReq;
                   headers := headers currentReq;
                   timestamp := timestamp currentReq;
                   retryCount := retryCount currentReq + 1 |} :: rest)
      ∧ timers w'' = timers w ++ [backoffDelay currentReq]
      ∧ errorsReported (trace w'') = errorsReported (trace w)
      ∧ fetches (trace w'') = fetches (trace w).
Proof.
  intros w i currentReq message Hreach Hi Hmsg.
  destruct (pending_pass w i _ Hreach Hi eq_refl) as (_ & _ & rest & Hstore).
  destruct (header_rejection_retried currentReq rest message
              (setTasks (delete i (tasks w)) w) Hmsg Hstore)
    as (w' & w'' & H1 & H2 & _ & _ & H3 & H4 & H5 & H6).
  exists rest, w', w''. split; [exact Hstore |].
  unfold step at 1. rewrite Hi.
  split; [exact H1 |]. split; [exact H2 |]. split; [exact H3 |].
  split; [exact H4 |]. split; [exact H5 | exact H6].
Qed.

Lemma failed_fetch_is_retried_witness :
  ∃ w' w'',
    step (Resume 0 (Rejected networkError)) fetchInFlight = Some w'
    ∧ step (Resume 0 Fulfilled) w' = Some w''
    ∧ timers w'' = [2000].
Proof.
  destruct (failed_fetch_is_retried fetchInFlight 0 reqA "Failed to fetch")
    as (rest & w' & w'' & _ & H1 & H2 & _ & H3 & _).
  - exists (Some [reqA; reqB]), true, [OnlineEvent; Resume 0 Fulfilled].
    vm_compute. reflexivity.
  - reflexivity.
  - reflexivity.
  - exists w', w''. split; [exact H1 |]. split; [exact H2 | exact H3].
Defined.

(** ** Offline *)

Lemma offlineQuiet_step (a : Action) (w w' : World) :
  offlineQuiet w → a ≠ SetOnLine true → step a w = Some w' →
  offlineQuiet w'
  ∧ fetches (trace w') = fetches (trace w)
  ∧ isSyncing w' = isSyncing w.
Proof.
  intros [Hoff Hfree] Ha Hstep. open_world w. subst ol.
  unfold offlineQuiet.
  destruct a as [req uuid now|c|cb|cb|b| |i o|i]; cbn in Hstep.
  - injection Hstep as <-. cbn. rewrite free_snoc by auto. auto.
  - injection Hstep as <-. cbn. auto.
  - injection Hstep as <-. unfold subscribe. cbn.
    destruct (decide (cb ∈ ls)); cbn; read_trace; auto.
  - injection Hstep as <-. cbn. auto.
  - injection Hstep as <-. cbn.
    destruct b; [contradiction Ha; reflexivity | auto].
  - injection Hstep as <-. unfold processQueue. cbn.
    rewrite orb_true_r. cbn. auto.
  - destruct (ts !! i) as [t|] eqn:Hi; [| discriminate].
    pose proof (filter_nil_lookup holdsGuard ts i t Hfree Hi) as Ht.
    pose proof (filter_delete_other holdsGuard ts i t Hi Ht) as Hdel.
    rewrite Hfree in Hdel.
    destruct t, o; try discriminate; cbn in Hstep; injection Hstep as <-;
      unfold afterPop, addRequest_resume, processQueue, log; cbn;
      rewrite ?orb_true_r; try destruct dbg; cbn; read_trace; auto.
  - destruct (tm !! i) as [d|]; [| discriminate].
    injection Hstep as <-. unfold timerCallback. cbn. auto.
Qed.

(** X10. While [navigator.onLine] is [false] and no pass is in flight,
    nothing is sent: whatever is enqueued, whichever [online] events and
    retry timers fire and in whatever order, no [fetch] is made and no pass
    starts until the browser reports the network back. *)
Theorem offline_engine_sends_nothing :
  ∀ (acts : list Action) (w w' : World),
    onLine w = false →
    List.filter holdsGuard (tasks w) = [] →
    Forall (λ a, a ≠ SetOnLine true) acts →
    run acts w = Some w' →
    fetches (trace w') = fetches (trace w)
    ∧ isSyncing w' = isSyncing w
    ∧ onLine w' = false
    ∧ List.filter holdsGuard (tasks w') = [].
Proof.
  induction acts as [|a acts IH]; intros w w' Hoff Hfree Hacts Hrun;
    cbn in Hrun.
  - injection Hrun as <-. auto.
  - destruct (step a w) as [w1|] eqn:Hstep; [| discriminate].
    apply Forall_cons in Hacts as [Ha Hacts].
    destruct (offlineQuiet_step a w w1 (conj Hoff Hfree) Ha Hstep)
      as ([Hoff1 Hfree1] & Hf1 & Hs1).
    destruct (IH w1 w' Hoff1 Hfree1 Hacts Hrun) as (Hf & Hs & Ho & Hfr).
    repeat split; congruence.
Qed.

Lemma offline_engine_sends_nothing_witness :
  ∃ w',
    run [AddRequest initB "b" 2; OnlineEvent; Resume 0 Fulfilled;
         OnlineEvent]
        (setTimers [2000] (initWorld (Some [reqA]) false)) = Some w'
    ∧ fetches (trace w') = [].
Proof.
  eexists. split; [vm_compute; reflexivity |].
  refine (proj1 (offline_engine_sends_nothing
                   [AddRequest initB "b" 2; OnlineEvent; Resume 0 Fulfilled;
                    OnlineEvent]
                   (setTimers [2000] (initWorld (Some [reqA]) false))
                   _ eq_refl eq_refl _ _)).
  - repeat constructor; discriminate.
  - vm_compute. reflexivity.
Defined.

(** ** Enqueueing while online *)

Lemma afterFetch_ok (currentReq : RequestPayload) (response : Response)
    (w : World) :
  ok response = true →
  afterFetch currentReq response w = suspend (PQ_json currentReq response) w.
Proof. intros Hok. unfold afterFetch. rewrite Hok. reflexivity. Qed.


(** ** Scenarios, one settled promise at a time *)

Ltac open_view w Hv :=
  destruct w as [sy0 ls0 [ph0 os0 oe0 dbg0] st0 ol0 ts0 tm0 tr0];
  unfold view in Hv; cbn in Hv;
  injection Hv as Hsy Hts Hst Htm Hc Hol HF HS HE HT;
  subst.

Ltac read_view :=
  unfold view; cbn -[mergeHeaders String.append showNumber fetchCall];
  unfold fetchCall; read_trace;
  rewrite ?List.filter_app;
  rewrite ?filter_listener_calls by reflexivity;
  cbn [List.filter isSetTimeout app]; rewrite ?app_nil_r.

Lemma view_addRequest (w : World) (req : RequestInit) (uuid : string)
    (now : N) sy ts st tm c ol F S E T :
  view w = mkView sy ts st tm c ol F S E T →
  ∃ w',
    step (AddRequest req uuid now) w = Some w'
    ∧ view w'
      = mkView sy (ts ++ [AR_update (newPayload req uuid now)])
          (Some (queueOf st ++ [newPayload req uuid now])) tm c ol F S E T.
Proof. intros Hv. open_view w Hv. eexists. split; reflexivity. Qed.

Lemma view_queued (w : World) (payload : RequestPayload) st tm c F S E T :
  view w = mkView false [AR_update payload] st tm c true F S E T →
  ∃ w',
    step (Resume 0 Fulfilled) w = Some w'
    ∧ view w' = mkView true [PQ_get st] st tm c true F S E T.
Proof.
  intros Hv. open_view w Hv. unfold step. cbn.
  unfold addRequest_resume, log. cbn.
  destruct dbg0; cbn; (eexists; split; [reflexivity |]);
    read_view; reflexivity.
Qed.

Lemma view_timer (w : World) (d : N) st tm c F S E T :
  view w = mkView false [] st (d :: tm) c true F S E T →
  ∃ w',
    step (TimerFires 0) w = Some w'
    ∧ view w' = mkView true [PQ_get st] st tm c true F S E T.
Proof.
  intros Hv. open_view w Hv. unfold step. cbn.
  eexists. split; [reflexivity |]. read_view. reflexivity.
Qed.

Lemma view_get_fetch (w : World) (v : option (list RequestPayload))
    (currentReq : RequestPayload) (q : list RequestPayload)
    sy st tm c ol F S E T :
  view w = mkView sy [PQ_get v] st tm c ol F S E T →
  queueOf v = currentReq :: q →
  prepareHeaders c = None →
  ∃ w',
    step (Resume 0 Fulfilled) w = Some w'
    ∧ view w'
      = mkView sy [PQ_fetch currentReq] st tm c ol
          (F ++ [fetchCall currentReq ∅]) S E T.
Proof.
  intros Hv Hq Hph. open_view w Hv. cbn in Hph. subst ph0.
  unfold step. cbn. unfold afterGet, queueOf in *. rewrite Hq.
  unfold log. cbn.
  destruct dbg0; cbn; (eexists; split; [reflexivity |]);
    read_view; reflexivity.
Qed.

Lemma view_get_headers (w : World) (v : option (list RequestPayload))
    (currentReq : RequestPayload) (q : list RequestPayload) (f : nat)
    sy st tm c ol F S E T :
  view w = mkView sy [PQ_get v] st tm c ol F S E T →
  queueOf v = currentReq :: q →
  prepareHeaders c = Some f →
  ∃ w',
    step (Resume 0 Fulfilled) w = Some w'
    ∧ view w' = mkView sy [PQ_headers currentReq] st tm c ol F S E T.
Proof.
  intros Hv Hq Hph. open_view w Hv. cbn in Hph. subst ph0.
  unfold step. cbn. unfold afterGet, queueOf in *. rewrite Hq.
  unfold log. cbn.
  destruct dbg0; cbn; (eexists; split; [reflexivity |]);
    read_view; reflexivity.
Qed.

Lemma view_headers (w : World) (currentReq : RequestPayload)
    (dynamicHeaders : Headers) sy st tm c ol F S E T :
  view w = mkView sy [PQ_headers currentReq] st tm c ol F S E T →
  ∃ w',
    step (Resume 0 (FulfilledHeaders dynamicHeaders)) w = Some w'
    ∧ view w'
      = mkView sy [PQ_fetch currentReq] st tm c ol
          (F ++ [fetchCall currentReq dynamicHeaders]) S E T.
Proof.
  intros Hv. open_view w Hv. unfold step. cbn -[mergeHeaders fetchCall].
  eexists. split; [reflexivity |]. read_view. reflexivity.
Qed.

Lemma view_fetch_ok (w : World) (currentReq : RequestPayload)
    (response : Response) sy st tm c ol F S E T :
  view w = mkView sy [PQ_fetch currentReq] st tm c ol F S E T →
  ok response = true →
  ∃ w',
    step (Resume 0 (FulfilledResponse response)) w = Some w'
    ∧ view w'
      = mkView sy [PQ_json currentReq response] st tm c ol F S E T.
Proof.
  intros Hv Hok. open_view w Hv. unfold step. cbn -[afterFetch].
  rewrite afterFetch_ok by exact Hok.
  eexists. split; [reflexivity |]. read_view. reflexivity.
Qed.

Lemma view_json (w : World) (currentReq : RequestPayload)
    (response : Response) (q : list RequestPayload) sy tm c ol F S E T :
  view w = mkView sy [PQ_json currentReq response] (Some q) tm c ol F S E T →
  ∃ w',
    step (Resume 0 Fulfilled) w = Some w'
    ∧ view w'
      = mkView sy [PQ_pop currentReq] (Some (drop 1 q)) tm c ol F
          (S ++ match onSuccess c with
                | Some f =>
                    [EvOnSuccess f (default "{}" (json response)) currentReq]
                | None => []
                end) E T.
Proof.
  intros Hv. open_view w Hv. unfold step. cbn.
  unfold afterJson, update. cbn.
  destruct os0; cbn; (eexists; split; [reflexivity |]);
    read_view; reflexivity.
Qed.

Lemma view_pop (w : World) (currentReq : RequestPayload)
    st tm c ol F S E T :
  view w = mkView true [PQ_pop currentReq] st tm c ol F S E T →
  ∃ w',
    step (Resume 0 Fulfilled) w = Some w'
    ∧ view w' = mkView true [] st tm c ol F S E T.
Proof.
  intros Hv. open_view w Hv. unfold step. cbn.
  eexists. split; [reflexivity |]. read_view. reflexivity.
Qed.

Lemma run_app (acts acts' : list Action) (w : World) :
  run (acts ++ acts') w = run acts w ≫= run acts'.
Proof.
  revert w. induction acts as [|a acts IH]; intros w; cbn; [reflexivity |].
  destruct (step a w); [apply IH | reflexivity].
Qed.

Lemma run_step_eq (a : Action) (acts : list Action) (w w1 : World) :
  step a w = Some w1 → run (a :: acts) w = run acts w1.
Proof. intros H. cbn. rewrite H. reflexivity. Qed.

Lemma afterFetch_server (currentReq : RequestPayload) (response : Response)
    (w : World) :
  ok response = false →
  (∀ s, status response = Some s → s < 400 ∨ 500 ≤ s) →
  afterFetch currentReq response w
    = notifyListeners (handleRetry currentReq w).
Proof.
  intros Hok Hstatus.
  assert (Hclass :
    match status response with
    | Some s => (400 <=? s) && (s <? 500)
    | None => false
    end = false).
  { destruct (status response) as [s|]; [| reflexivity].
    destruct (Hstatus s eq_refl) as [Hlt | Hge].
    - apply andb_false_intro1, N.leb_gt, Hlt.
    - apply andb_false_intro2, N.ltb_ge, Hge. }
  rewrite afterFetch_not_ok, Hclass by exact Hok.
  unfold innerCatch. rewrite serverError_not_clientError. reflexivity.
Qed.

Lemma view_fetch_retry (w : World) (currentReq : RequestPayload)
    (response : Response) (q : list RequestPayload) sy tm c ol F S E T :
  view w = mkView sy [PQ_fetch currentReq] (Some q) tm c ol F S E T →
  ok response = false →
  (∀ s, status response = Some s → s < 400 ∨ 500 ≤ s) →
  ∃ w',
    step (Resume 0 (FulfilledResponse response)) w = Some w'
    ∧ view w'
      = mkView sy [HR_update currentReq] (Some (incrementHead currentReq q))
          tm c ol F S E T.
Proof.
  intros Hv Hok Hstatus. open_view w Hv. unfold step. cbn -[afterFetch].
  rewrite afterFetch_server by assumption.
  unfold handleRetry, update, log. cbn -[incrementHead].
  destruct dbg0; cbn -[incrementHead]; (eexists; split; [reflexivity |]);
    read_view; reflexivity.
Qed.

Lemma view_retry_resume (w : World) (req : RequestPayload)
    sy st tm c ol F S E T :
  view w = mkView sy [HR_update req] st tm c ol F S E T →
  ∃ w',
    step (Resume 0 Fulfilled) w = Some w'
    ∧ view w'
      = mkView false [] st (tm ++ [backoffDelay req]) c ol F S E
          (T ++ [EvSetTimeout (backoffDelay req)]).
Proof.
  intros Hv. open_view w Hv. unfold step. cbn -[backoffDelay].
  eexists. split; [reflexivity |].
  unfold handleRetry_resume. read_view. reflexivity.
Qed.

(** An enqueue on an idle, online engine with an empty queue, followed to
    the end of the delivery. *)
Lemma enqueue_delivery :
  ∀ (req : RequestInit) (uuid : string) (now : N)
    (dynamicHeaders : Headers) (response : Response) (w : World),
    isSyncing w = false →
    tasks w = [] →
    onLine w = true →
    queueOf (store w) = [] →
    ok response = true →
    ∃ w',
      run (enqueueAndDeliver req uuid now (config w) dynamicHeaders response)
          w = Some w'
      ∧ store w' = Some []
      ∧ fetches (trace w')
        = fetches (trace w)
            ++ [EvFetch (init_url req) (init_method req)
                  (mergeHeaders (init_headers req)
                     match prepareHeaders (config w) with
                     | Some _ => dynamicHeaders
                     | None => ∅
                     end)
                  (init_body req)]
      ∧ successesReported (trace w')
        = successesReported (trace w)
            ++ match onSuccess (config w) with
               | Some f =>
                   [EvOnSuccess f (default "{}" (json response))
                      (newPayload req uuid now)]
               | None => []
               end
      ∧ errorsReported (trace w') = errorsReported (trace w)
      ∧ timers w' = timers w.
Proof.
  intros req uuid now dynamicHeaders response w Hs Hts Hon Hq Hok.
  assert (Hv : view w
               = mkView false [] (store w) (timers w) (config w) true
                   (fetches (trace w)) (successesReported (trace w))
                   (errorsReported (trace w))
                   (List.filter isSetTimeout (trace w))).
  { unfold view. rewrite Hs, Hts, Hon. reflexivity. }
  destruct (view_addRequest w req uuid now _ _ _ _ _ _ _ _ _ _ Hv)
    as (w1 & H1 & Hv1).
  rewrite Hq in Hv1. cbn [app] in Hv1.
  destruct (view_queued w1 _ _ _ _ _ _ _ _ Hv1) as (w2 & H2 & Hv2).
  unfold enqueueAndDeliver. cbn [app].
  rewrite (run_step_eq _ _ _ _ H1), (run_step_eq _ _ _ _ H2).
  set (p := newPayload req uuid now) in *.
  assert (Hfetch : ∃ w4,
            run ([Resume 0 Fulfilled]
                 ++ match prepareHeaders (config w) with
                    | Some _ => [Resume 0 (FulfilledHeaders dynamicHeaders)]
                    | None => []
                    end) w2 = Some w4
            ∧ view w4
              = mkView true [PQ_fetch p] (Some [p]) (timers w) (config w)
                  true
                  (fetches (trace w)
                   ++ [fetchCall p
                         match prepareHeaders (config w) with
                         | Some _ => dynamicHeaders
                         | None => ∅
                         end])
                  (successesReported (trace w)) (errorsReported (trace w))
                  (List.filter isSetTimeout (trace w))).
  { destruct (prepareHeaders (config w)) as [f|] eqn:Hph.
    - destruct (view_get_headers w2 _ p [] f _ _ _ _ _ _ _ _ _ Hv2 eq_refl Hph)
        as (w3 & H3 & Hv3).
      destruct (view_headers w3 p dynamicHeaders _ _ _ _ _ _ _ _ _ Hv3)
        as (w4 & H4 & Hv4).
      exists w4. cbn [app].
      rewrite (run_step_eq _ _ _ _ H3), (run_step_eq _ _ _ _ H4).
      split; [reflexivity | exact Hv4].
    - destruct (view_get_fetch w2 _ p [] _ _ _ _ _ _ _ _ _ Hv2 eq_refl Hph)
        as (w4 & H4 & Hv4).
      exists w4. cbn [app]. rewrite (run_step_eq _ _ _ _ H4).
      split; [reflexivity | exact Hv4]. }
  destruct Hfetch as (w4 & Hrun4 & Hv4).
  destruct (view_fetch_ok w4 p response _ _ _ _ _ _ _ _ _ Hv4 Hok)
    as (w5 & H5 & Hv5).
  destruct (view_json w5 p response _ _ _ _ _ _ _ _ _ Hv5)
    as (w6 & H6 & Hv6).
  destruct (view_pop w6 p _ _ _ _ _ _ _ _ Hv6) as (w7 & H7 & Hv7).
  exists w7. split.
  - change (run (Resume 0 Fulfilled
                 :: (match prepareHeaders (config w) with
                     | Some _ => [Resume 0 (FulfilledHeaders dynamicHeaders)]
                     | None => []
                     end
                     ++ [Resume 0 (FulfilledResponse response);
                         Resume 0 Fulfilled; Resume 0 Fulfilled])) w2
            = Some w7).
    cbn [app] in Hrun4.
    rewrite app_comm_cons, run_app, Hrun4. cbn [mbind option_bind].
    rewrite (run_step_eq _ _ _ _ H5), (run_step_eq _ _ _ _ H6),
      (run_step_eq _ _ _ _ H7).
    reflexivity.
  - unfold view in Hv7. injection Hv7 as _ _ Hst7 Htm7 _ _ HF7 HS7 HE7 _.
    rewrite Hst7, Htm7, HF7, HS7, HE7. cbn [drop].
    repeat split; reflexivity.
Qed.

(** X11. A request enqueued on an idle, online engine whose queue is empty
    is sent at once, with the queued [url], [method] and [body] and the
    merged headers; when the response has [ok = true] the queue is empty
    again and [onSuccess] has been called once with the queued payload. *)
Theorem online_enqueue_is_delivered :
  ∀ (req : RequestInit) (uuid : string) (now : N)
    (dynamicHeaders : Headers) (response : Response) (w : World),
    isSyncing w = false →
    tasks w = [] →
    onLine w = true →
    queueOf (store w) = [] →
    ok response = true →
    ∃ w',
      run (enqueueAndDeliver req uuid now (config w) dynamicHeaders response)
          w = Some w'
      ∧ store w' = Some []
      ∧ fetches (trace w')
        = fetches (trace w)
            ++ [EvFetch (init_url req) (init_method req)
                  (mergeHeaders (init_headers req)
                     match prepareHeaders (config w) with
                     | Some _ => dynamicHeaders
                     | None => ∅
                     end)
                  (init_body req)]
      ∧ successesReported (trace w')
        = successesReported (trace w)
            ++ match onSuccess (config w) with
               | Some f =>
                   [EvOnSuccess f (default "{}" (json response))
                      (newPayload req uuid now)]
               | None => []
               end
      ∧ errorsReported (trace w') = errorsReported (trace w)
      ∧ timers w' = timers w.
Proof. exact enqueue_delivery. Qed.

Lemma online_enqueue_is_delivered_witness :
  ∃ w',
    run (enqueueAndDeliver initA "a" 1 emptyConfig ∅ response200)
        (initWorld None true) = Some w'
    ∧ store w' = Some [].
Proof.
  destruct (online_enqueue_is_delivered initA "a" 1 ∅ response200
              (initWorld None true))
    as (w' & H1 & H2 & _); try reflexivity.
  exists w'. split; [exact H1 | exact H2].
Defined.

(** ** Repeated failures *)

Lemma retried_0 (req : RequestPayload) : retried 0 req = req.
Proof.
  destruct req. unfold retried. cbn. rewrite N.add_0_r. reflexivity.
Qed.

Lemma retried_S (k : nat) (req : RequestPayload) :
  retried k (retried 1 req) = retried (S k) req.
Proof. unfold retried. cbn [id url method body headers timestamp retryCount].
  f_equal. lia.
Qed.

Lemma incrementHead_self (req : RequestPayload) (rest : list RequestPayload) :
  incrementHead req (req :: rest) = retried 1 req :: rest.
Proof.
  unfold incrementHead. destruct (decide (id req = id req)); [| contradiction].
  reflexivity.
Qed.

(** One more failed attempt, from timer to timer. *)
Lemma failed_round (req : RequestPayload) (rest : list RequestPayload)
    (response : Response) (w : World) :
  awaitingRetry req rest w →
  ok response = false →
  (∀ s, status response = Some s → s < 400 ∨ 500 ≤ s) →
  ∃ w',
    run (retryRound response) w = Some w'
    ∧ awaitingRetry (retried 1 req) rest w'
    ∧ timers w' = [backoffDelay req]
    ∧ fetches (trace w') = fetches (trace w) ++ [fetchCall req ∅]
    ∧ List.filter isSetTimeout (trace w')
      = List.filter isSetTimeout (trace w)
          ++ [EvSetTimeout (backoffDelay req)]
    ∧ errorsReported (trace w') = errorsReported (trace w)
    ∧ successesReported (trace w') = successesReported (trace w).
Proof.
  intros (Hs & Hts & Hon & Hph & Hst & Htm) Hok Hstatus.
  destruct (timers w) as [|d [|d' tm]] eqn:Htimers; try discriminate Htm.
  assert (Hv : view w
               = mkView false [] (Some (req :: rest)) [d] (config w) true
                   (fetches (trace w)) (successesReported (trace w))
                   (errorsReported (trace w))
                   (List.filter isSetTimeout (trace w))).
  { unfold view. rewrite Hs, Hts, Hon, Hst, Htimers. reflexivity. }
  destruct (view_timer w d _ _ _ _ _ _ _ Hv) as (w1 & H1 & Hv1).
  destruct (view_get_fetch w1 _ req rest _ _ _ _ _ _ _ _ _ Hv1 eq_refl Hph)
    as (w2 & H2 & Hv2).
  destruct (view_fetch_retry w2 req response _ _ _ _ _ _ _ _ _ Hv2 Hok
              Hstatus) as (w3 & H3 & Hv3).
  destruct (view_retry_resume w3 req _ _ _ _ _ _ _ _ _ Hv3)
    as (w4 & H4 & Hv4).
  exists w4. unfold retryRound.
  rewrite (run_step_eq _ _ _ _ H1), (run_step_eq _ _ _ _ H2),
    (run_step_eq _ _ _ _ H3), (run_step_eq _ _ _ _ H4).
  split; [reflexivity |].
  rewrite incrementHead_self in Hv4.
  unfold view in Hv4. injection Hv4 as Hs4 Hts4 Hst4 Htm4 Hc4 Hol4 HF4 HS4 HE4 HT4.
  unfold awaitingRetry.
  rewrite Hs4, Hts4, Hst4, Htm4, Hc4, Hol4, HF4, HS4, HE4, HT4.
  repeat split; assumption || reflexivity.
Qed.

(** X12. Consecutive retry-class failures of the head item: after [k]
    rounds (timer, [get], [fetch], [handleRetry]) the same request has been
    sent [k] more times, its stored [retryCount] has grown by [k], the
    delays armed are [min(1000 * 2^(n+j+1), 30000)] for [j = 0 .. k-1], the
    items behind it are untouched, and [onError] was never called. *)
Theorem repeated_failures_back_off :
  ∀ (k : nat) (req : RequestPayload) (rest : list RequestPayload)
    (response : Response) (w : World),
    awaitingRetry req rest w →
    ok response = false →
    (∀ s, status response = Some s → s < 400 ∨ 500 ≤ s) →
    ∃ w',
      run (retryRounds k response) w = Some w'
      ∧ store w'
        = Some ({| id := id req; url := url req; method := method req;
                   body := body req; headers := headers req;
                   timestamp := timestamp req;
                   retryCount := retryCount req + N.of_nat k |} :: rest)
      ∧ isSyncing w' = false
      ∧ fetches (trace w')
        = fetches (trace w) ++ replicate k (fetchCall req ∅)
      ∧ List.filter isSetTimeout (trace w')
        = List.filter isSetTimeout (trace w)
            ++ map (λ j, EvSetTimeout
                           (N.min (1000 * 2 ^ (retryCount req + N.of_nat j + 1))
                                  30000))
                   (seq 0 k)
      ∧ errorsReported (trace w') = errorsReported (trace w).
Proof.
  intros k req rest response w Hw Hok Hstatus.
  assert (Hgen : ∀ k req w,
            awaitingRetry req rest w →
            ∃ w',
              run (retryRounds k response) w = Some w'
              ∧ awaitingRetry (retried k req) rest w'
              ∧ fetches (trace w')
                = fetches (trace w) ++ replicate k (fetchCall req ∅)
              ∧ List.filter isSetTimeout (trace w')
                = List.filter isSetTimeout (trace w)
                    ++ map (λ j, EvSetTimeout (backoffDelay (retried j req)))
                           (seq 0 k)
              ∧ errorsReported (trace w') = errorsReported (trace w)).
  { clear k req w Hw. induction k as [|k IH]; intros req w Hw.
    - exists w. cbn. rewrite retried_0, !app_nil_r. auto.
    - destruct (failed_round req rest response w Hw Hok Hstatus)
        as (w1 & Hrun1 & Hw1 & _ & HF1 & HT1 & HE1 & _).
      destruct (IH (retried 1 req) w1 Hw1)
        as (w' & Hrun & Hw' & HF & HT & HE).
      exists w'. cbn [retryRounds]. rewrite run_app, Hrun1.
      cbn [mbind option_bind].
      split; [exact Hrun |]. rewrite <- retried_S.
      split; [exact Hw' |].
      split; [rewrite HF, HF1, <- app_assoc; reflexivity |].
      split; [| congruence].
      rewrite HT, HT1, <- app_assoc. f_equal. cbn [seq map].
      rewrite retried_0. f_equal.
      rewrite <- seq_shift, map_map. apply map_ext. intros j.
      rewrite retried_S. reflexivity. }
  destruct (Hgen k req w Hw) as (w' & Hrun & Hw' & HF & HT & HE).
  destruct Hw' as (Hs' & _ & _ & _ & Hst' & _).
  exists w'. repeat split; assumption.
Qed.

Lemma repeated_failures_back_off_witness :
  ∃ w',
    run (retryRounds 6 responseNoStatus)
        (setTimers [0] (initWorld (Some [reqA; reqB]) true)) = Some w'
    ∧ List.filter isSetTimeout (trace w')
      = map EvSetTimeout [2000; 4000; 8000; 16000; 30000; 30000].
Proof.
  destruct (repeated_failures_back_off 6 reqA [reqB] responseNoStatus
              (setTimers [0] (initWorld (Some [reqA; reqB]) true)))
    as (w' & H1 & _ & _ & _ & H2 & _).
  - repeat split; reflexivity.
  - reflexivity.
  - intros s Hs. discriminate Hs.
  - exists w'. split; [exact H1 | exact H2].
Defined.

(** ** A retry timer that fires offline *)

Lemma view_timer_offline (w : World) (d : N) sy ts st tm c F S E T :
  view w = mkView sy ts st (d :: tm) c false F S E T →
  ∃ w',
    step (TimerFires 0) w = Some w'
    ∧ view w' = mkView sy ts st tm c false F S E T.
Proof.
  intros Hv. open_view w Hv. unfold step. cbn.
  eexists. split; [reflexivity |]. read_view. reflexivity.
Qed.

Lemma view_setOnLine (w : World) (b : bool) sy ts st tm c ol F S E T :
  view w = mkView sy ts st tm c ol F S E T →
  ∃ w',
    step (SetOnLine b) w = Some w'
    ∧ view w' = mkView sy ts st tm c b F S E T.
Proof.
  intros Hv. open_view w Hv. eexists. split; reflexivity.
Qed.

Lemma view_onlineEvent (w : World) st tm c F S E T :
  view w = mkView false [] st tm c true F S E T →
  ∃ w',
    step OnlineEvent w = Some w'
    ∧ view w' = mkView true [PQ_get st] st tm c true F S E T.
Proof.
  intros Hv. open_view w Hv. unfold step. cbn.
  eexists. split; [reflexivity |]. read_view. reflexivity.
Qed.

(** X13. A retry timer that fires while the browser is offline is used up
    without effect: nothing is sent and no new timer is armed.  The retry
    is not lost: when the network is back, the [online] event starts the
    pass and the same head item is sent again. *)
Theorem retry_missed_offline_resumes_on_online_event :
  ∀ (req : RequestPayload) (rest : list RequestPayload) (d : N) (w : World),
    isSyncing w = false →
    tasks w = [] →
    onLine w = false →
    prepareHeaders (config w) = None →
    store w = Some (req :: rest) →
    timers w = [d] →
    ∃ w1 w2,
      step (TimerFires 0) w = Some w1
      ∧ timers w1 = []
      ∧ isSyncing w1 = false
      ∧ fetches (trace w1) = fetches (trace w)
      ∧ run [SetOnLine true; OnlineEvent; Resume 0 Fulfilled] w1 = Some w2
      ∧ fetches (trace w2) = fetches (trace w) ++ [fetchCall req ∅]
      ∧ store w2 = Some (req :: rest).
Proof.
  intros req rest d w Hs Hts Hoff Hph Hst Htm.
  assert (Hv : view w
               = mkView false [] (Some (req :: rest)) [d] (config w) false
                   (fetches (trace w)) (successesReported (trace w))
                   (errorsReported (trace w))
                   (List.filter isSetTimeout (trace w))).
  { unfold view. rewrite Hs, Hts, Hoff, Hst, Htm. reflexivity. }
  destruct (view_timer_offline w d _ _ _ _ _ _ _ _ _ Hv) as (w1 & H1 & Hv1).
  destruct (view_setOnLine w1 true _ _ _ _ _ _ _ _ _ _ Hv1)
    as (w1' & H1' & Hv1').
  destruct (view_onlineEvent w1' _ _ _ _ _ _ _ Hv1') as (w1'' & H2 & Hv2).
  destruct (view_get_fetch w1'' _ req rest _ _ _ _ _ _ _ _ _ Hv2 eq_refl Hph)
    as (w2 & H3 & Hv3).
  exists w1, w2. split; [exact H1 |].
  rewrite (run_step_eq _ _ _ _ H1'), (run_step_eq _ _ _ _ H2),
    (run_step_eq _ _ _ _ H3).
  unfold view in Hv1, Hv3.
  injection Hv1 as Hs1 _ _ Htm1 _ _ HF1 _ _ _.
  injection Hv3 as _ _ Hst3 _ _ _ HF3 _ _ _.
  rewrite Hs1, Htm1, HF1, Hst3, HF3. repeat split; reflexivity.
Qed.

Lemma retry_missed_offline_resumes_on_online_event_witness :
  ∃ w1 w2,
    step (TimerFires 0) (setTimers [2000] (twoQueued false)) = Some w1
    ∧ run [SetOnLine true; OnlineEvent; Resume 0 Fulfilled] w1 = Some w2
    ∧ fetches (trace w2) = [fetchCall reqA ∅].
Proof.
  destruct (retry_missed_offline_resumes_on_online_event reqA [reqB] 2000
              (setTimers [2000] (twoQueued false)))
    as (w1 & w2 & H1 & _ & _ & _ & H2 & H3 & _); try reflexivity.
  exists w1, w2. split; [exact H1 |]. split; [exact H2 | exact H3].
Defined.

(** ** Backoff, from the failed attempt to the timer *)

(** The retry branch, followed to the timer. *)
Lemma retry_branch_timer (currentReq : RequestPayload)
    (rest : list RequestPayload) (w : World) :
  store w = Some (currentReq :: rest) →
  ∃ w'',
    step (Resume (length (tasks w)) Fulfilled)
         (notifyListeners (handleRetry currentReq w)) = Some w''
    ∧ store w''
      = Some ({| id := id currentReq; url := url currentReq;
                 method := method currentReq; body := body currentReq;
                 headers := headers currentReq;
                 timestamp := timestamp currentReq;
                 retryCount := retryCount currentReq + 1 |} :: rest)
    ∧ timers w'' = timers w ++ [backoffDelay currentReq]
    ∧ List.filter isSetTimeout (trace w'')
      = List.filter isSetTimeout (trace w)
          ++ [EvSetTimeout (backoffDelay currentReq)]
    ∧ isSyncing w'' = false.
Proof.
  intros Hstore.
  destruct (retry_branch currentReq rest w Hstore)
    as (Hst & Hts & _ & Htm & _ & _).
  assert (Htr : List.filter isSetTimeout
                  (trace (notifyListeners (handleRetry currentReq w)))
                = List.filter isSetTimeout (trace w)).
  { clear. destruct w as [sy ls [ph os oe dbg] st ol ts tm tr].
    unfold handleRetry, update, log, notifyListeners. cbn.
    destruct dbg, st; cbn;
      rewrite !List.filter_app, ?filter_listener_calls by reflexivity;
      cbn; rewrite ?app_nil_r; reflexivity. }
  generalize dependent (notifyListeners (handleRetry currentReq w)).
  intros w' Hst Hts Htm Htr.
  destruct w' as [sy ls cfg st ol ts tm tr]. cbn in *. subst st ts tm.
  unfold step. cbn -[backoffDelay].
  rewrite list_lookup_middle by reflexivity.
  rewrite delete_middle, app_nil_r. cbn -[backoffDelay].
  eexists. split; [reflexivity |].
  unfold handleRetry_resume, notifyListeners. cbn -[backoffDelay].
  rewrite !List.filter_app, filter_listener_calls by reflexivity.
  cbn -[backoffDelay]. rewrite app_nil_r, Htr.
  repeat split; reflexivity.
Qed.

(** Every retry-class outcome takes the retry branch. *)
Lemma retryClass_resume (t : Task) (o : Settled)
    (currentReq : RequestPayload) (w : World) :
  retryClass t o currentReq →
  holdsGuard t = true
  ∧ agrees (store w) t = (∃ rest, store w = Some (currentReq :: rest))
  ∧ resume t o w = Some (notifyListeners (handleRetry currentReq w)).
Proof.
  intros [(-> & response & -> & Hok & Hstatus)
         | (Ht & message & -> & Hmsg)].
  - split; [reflexivity |]. split; [reflexivity |].
    cbn [resume]. rewrite afterFetch_server by assumption. reflexivity.
  - destruct Ht as [-> | ->];
      (split; [reflexivity |]; split; [reflexivity |]);
      cbn [resume innerCatch]; rewrite Hmsg; reflexivity.
Qed.

(** C4. Every retry-class outcome of an attempt (a response that is not ok
    with a status outside 400-499, a rejected [fetch], a rejected
    [prepareHeaders]) on an item whose count before the attempt is [n] arms
    the timer with [min(1000 * 2^(n+1), 30000)] ms: the count after the
    increment is used, so a first failure waits 2000 ms, and the delay
    never exceeds 30000 ms.  The item is left at the head with count
    [n + 1], so that the delay of its next failure is not smaller. *)
Theorem backoff_uses_post_increment_count :
  ∀ (w : World) (i : nat) (t : Task) (o : Settled)
    (currentReq : RequestPayload),
    Reachable w →
    tasks w !! i = Some t →
    retryClass t o currentReq →
    ∃ rest next w' w'',
      store w = Some (currentReq :: rest)
      ∧ step (Resume i o) w = Some w'
      ∧ step (Resume (length (delete i (tasks w))) Fulfilled) w' = Some w''
      ∧ timers w''
        = timers w ++ [N.min (1000 * 2 ^ (retryCount currentReq + 1)) 30000]
      ∧ List.filter isSetTimeout (trace w'')
        = List.filter isSetTimeout (trace w)
            ++ [EvSetTimeout
                  (N.min (1000 * 2 ^ (retryCount currentReq + 1)) 30000)]
      ∧ N.min (1000 * 2 ^ (retryCount currentReq + 1)) 30000 ≤ 30000
      ∧ (retryCount currentReq = 0 →
         N.min (1000 * 2 ^ (retryCount currentReq + 1)) 30000 = 2000)
      ∧ store w'' = Some (next :: rest)
      ∧ id next = id currentReq
      ∧ retryCount next = retryCount currentReq + 1
      ∧ N.min (1000 * 2 ^ (retryCount currentReq + 1)) 30000
        ≤ N.min (1000 * 2 ^ (retryCount next + 1)) 30000.
Proof.
  intros w i t o currentReq Hreach Hi Hclass.
  destruct (retryClass_resume t o currentReq
              (setTasks (delete i (tasks w)) w) Hclass)
    as (Ht & Hagrees & Hresume).
  destruct (pending_pass w i t Hreach Hi Ht) as (_ & _ & Ha).
  change (store w) with (store (setTasks (delete i (tasks w)) w)) in Ha.
  rewrite Hagrees in Ha. destruct Ha as [rest Hstore].
  destruct (retry_branch_timer currentReq rest
              (setTasks (delete i (tasks w)) w) Hstore)
    as (w'' & Hstep & Hst & Htm & Htr & _).
  exists rest,
    {| id := id currentReq; url := url currentReq;
       method := method currentReq; body := body currentReq;
       headers := headers currentReq; timestamp := timestamp currentReq;
       retryCount := retryCount currentReq + 1 |},
    (notifyListeners
       (handleRetry currentReq (setTasks (delete i (tasks w)) w))), w''.
  split; [exact Hstore |].
  split; [unfold step; rewrite Hi; exact Hresume |].
  split; [exact Hstep |]. split; [exact Htm |]. split; [exact Htr |].
  split; [apply N.le_min_r |].
  split; [intros ->; reflexivity |].
  split; [exact Hst |]. split; [reflexivity |]. split; [reflexivity |].
  cbn [retryCount].
  apply N.min_le_compat_r, N.mul_le_mono_l, N.pow_le_mono_r; lia.
Qed.

Lemma backoff_uses_post_increment_count_witness :
  ∃ w' w'',
    step (Resume 0 (FulfilledResponse responseNoStatus)) fetchInFlight
      = Some w'
    ∧ step (Resume 0 Fulfilled) w' = Some w''
    ∧ timers w'' = [2000].
Proof.
  destruct (backoff_uses_post_increment_count fetchInFlight 0
              (PQ_fetch reqA) (FulfilledResponse responseNoStatus) reqA)
    as (rest & next & w' & w'' & _ & H1 & H2 & H3 & _).
  - exists (Some [reqA; reqB]), true, [OnlineEvent; Resume 0 Fulfilled].
    vm_compute. reflexivity.
  - reflexivity.
  - left. split; [reflexivity |]. exists responseNoStatus.
    split; [reflexivity |]. split; [reflexivity |].
    intros s Hs. discriminate Hs.
  - exists w', w''. split; [exact H1 |]. split; [exact H2 | exact H3].
Defined.
